(** * nuggt: intensity per brain region

    A shallow embedding of [nuggt/calculate_intensity_in_regions.py]:
    the plane processor [do_plane], the aggregation driver and the
    report writer of [main], together with the numpy, multiprocessing
    and Python built-in operations these functions call. *)

From Stdlib Require Import ZArith String Ascii List Lia Permutation.
From Stdlib Require Import DecimalString.
From stdpp Require Import gmap strings list fin_maps sorting.

Open Scope Z_scope.

(** ** Python exceptions and fallible computations *)

Inductive exn : Type :=
  | ValueError
  | TypeError
  | IOError
  | IndexError
  | KeyError.

Inductive result (A : Type) : Type :=
  | Ok (a : A)
  | Raise (e : exn).

Arguments Ok {A} a.
Arguments Raise {A} e.

#[global] Instance result_bind : MBind result := fun A B k r =>
  match r with
  | Ok a => k a
  | Raise e => Raise e
  end.

(** ** Machine numbers *)

Module Num.

(** [astype(np.uint16)] on an integer: the low 16 bits. *)
Definition to_uint16 (v : Z) : Z := v mod 2 ^ 16.

(** [astype(np.int64)] on an integer: two's complement on 64 bits. *)
Definition to_int64 (v : Z) : Z := (v + 2 ^ 63) mod 2 ^ 64 - 2 ^ 63.

(** Addition of two [int64] (or [intp]) values. *)
Definition add64 (a b : Z) : Z := to_int64 (a + b).

(** The binary64 value nearest to the integer [v], ties to even.  A
    double has 53 significant bits; every double of magnitude 2^53 or
    more is an integer, so the doubles met while summing integers are
    represented by the integers they are equal to. *)
Definition round53 (v : Z) : Z :=
  let a := Z.abs v in
  let k := Z.log2 a - 52 in
  if k <=? 0 then v
  else
    let q := Z.shiftr a k in
    let r := Z.land a (Z.ones k) in
    let half := Z.shiftl 1 (k - 1) in
    let q' := if (half <? r) || ((r =? half) && Z.odd q) then q + 1 else q in
    Z.sgn v * Z.shiftl q' k.

(** Addition of two doubles that hold integers. *)
Definition fadd (a b : Z) : Z := round53 (a + b).

End Num.

(** ** numpy arrays

    One-dimensional arrays carry their dtype: [I64] for [np.int64] and
    [np.intp], [F64] for [np.float64] holding integral values.  The
    operations are those of numpy 1.x from release 1.10 on: a [uint16]
    scalar plus a Python integer is an [int64], [np.bincount] with
    weights works in double, and an in-place operation casts its
    result under the rule [same_kind]. *)

Inductive ndarray : Type :=
  | I64 (l : list Z)
  | F64 (l : list Z).

Definition values (a : ndarray) : list Z :=
  match a with I64 l | F64 l => l end.

Definition is_float (a : ndarray) : bool :=
  match a with I64 _ => false | F64 _ => true end.

(** The three-dimensional label volume, stored in C order. *)
Record volume : Type := Volume {
  nz : Z;
  ny : Z;
  nx : Z;
  vdata : list Z
}.

(** A two-dimensional plane of integer samples, stored in C order. *)
Record plane : Type := Plane {
  height : nat;
  width : nat;
  pdata : list Z
}.

Module Np.

(** [np.max] over a flattened array; raises on an empty one. *)
Definition max (l : list Z) : result Z :=
  match l with
  | [] => Raise ValueError
  | v :: l' => Ok (fold_left Z.max l' v)
  end.

(** [np.zeros(n, np.int64)] *)
Definition zeros (n : Z) : list Z := replicate (Z.to_nat n) 0.

(** The length of the vector [np.bincount] returns. *)
Definition bincount_size (x : list Z) (minlength : Z) : nat :=
  match x with
  | [] => Z.to_nat minlength
  | v :: x' => Z.to_nat (Z.max minlength (fold_left Z.max x' v + 1))
  end.

(** [np.bincount(x, minlength=n)] for an array [x] of unsigned
    integers: a vector of [intp], one increment per element of [x]. *)
Definition bincount (x : list Z) (minlength : Z) : ndarray :=
  I64 (fold_left (fun ans v => alter (fun c => Num.add64 c 1) (Z.to_nat v) ans)
                 x (replicate (bincount_size x minlength) 0)).

(** [np.bincount(x, w, minlength=n)]: for an empty [x] the weights are
    not looked at and the result is a vector of [intp] zeros, as
    without weights; otherwise the weights are converted to double and
    accumulated in a vector of doubles. *)
Definition bincount_weights (x w : list Z) (minlength : Z) : ndarray :=
  match x with
  | [] => I64 (replicate (Z.to_nat minlength) 0)
  | _ :: _ =>
      F64 (fold_left (fun ans vw =>
                        alter (fun s => Num.fadd s (Num.round53 vw.2))
                              (Z.to_nat vw.1) ans)
                     (zip x w) (replicate (bincount_size x minlength) 0))
  end.

(** [a[mask]]: the elements of [a] at the positions where the boolean
    array [mask] is true; the two arrays must have the same length. *)
Fixpoint select_aux {A : Type} (mask : list bool) (a : list A) : list A :=
  match mask, a with
  | b :: mask', v :: a' =>
      if b then v :: select_aux mask' a' else select_aux mask' a'
  | _, _ => []
  end.

Definition select {A : Type} (mask : list bool) (a : list A) : result (list A) :=
  if (length mask =? length a)%nat then Ok (select_aux mask a)
  else Raise IndexError.

(** [np.mgrid[z:z+1, 0:h, 0:w]], the three axes flattened and zipped. *)
Definition mgrid (z : Z) (h w : nat) : list (Z * Z * Z) :=
  y ← seq 0 h; (fun x => (z, Z.of_nat y, Z.of_nat x)) <$> seq 0 w.

End Np.

(** ** The plane processor *)

(** [m[z, y, x]] for in-range indices of a C-ordered volume. *)
Definition vol_get (m : volume) (c : Z * Z * Z) : Z :=
  let '(z, y, x) := c in
  default 0 (vdata m !! Z.to_nat ((z * ny m + y) * nx m + x)).

(** The mask of [do_plane]: every axis inside the volume. *)
Definition in_bounds (m : volume) (c : Z * Z * Z) : bool :=
  let '(zseg, yseg, xseg) := c in
  (0 <=? xseg) && (xseg <? nx m) &&
  (0 <=? yseg) && (yseg <? ny m) &&
  (0 <=? zseg) && (zseg <? nz m).

Section Warp.

(** The alignment is consumed through [Warper.approximate]:
    [warp_round z h w c] is the approximation built for plane [z] of
    shape [(h, w)], evaluated at the pixel coordinate [c], every axis
    rounded with [np.round] and cast to [np.int32]. *)
Variable warp_round : Z -> nat -> nat -> Z * Z * Z -> Z * Z * Z.

Definition do_plane (pl : plane) (z : Z) (segmentation : volume)
  : result (ndarray * ndarray) :=
  let grid := Np.mgrid z (height pl) (width pl) in
  let seg3 := warp_round z (height pl) (width pl) <$> grid in
  let mask := in_bounds segmentation <$> seg3 in
  top ← Np.max (vdata segmentation);
  let send := top + 1 in
  idx ← Np.select mask seg3;
  let seg := vol_get segmentation <$> idx in
  let counts := Np.bincount seg send in
  w ← Np.select mask (pdata pl);
  let sums := Np.bincount_weights seg (Num.to_int64 <$> w) send in
  Ok (counts, sums).

End Warp.

(** ** The aggregation driver *)

(** [a += b] for a one-dimensional [np.int64] array [a].  numpy
    resolves the loop on the operand dtypes and casts the result to
    the dtype of [a] under the rule [same_kind]: a [float64] operand
    gives a [float64] result, which may not be cast to [int64].  An
    operand of length 1 is broadcast. *)
Definition iadd_int64 (a : list Z) (b : ndarray) : result (list Z) :=
  match b with
  | F64 _ => Raise TypeError
  | I64 y =>
      if (length y =? length a)%nat then Ok (zip_with Num.add64 a y)
      else
        match y with
        | [v] => Ok ((fun u => Num.add64 u v) <$> a)
        | _ => Raise ValueError
        end
  end.

(** The body of both accumulation loops. *)
Definition accumulate (totals : list Z * list Z) (cs : ndarray * ndarray)
  : result (list Z * list Z) :=
  total_counts ← iadd_int64 totals.1 cs.1;
  total_sums ← iadd_int64 totals.2 cs.2;
  Ok (total_counts, total_sums).

(** The reduce loop over the results of the plane tasks, in the order
    of the list. *)
Fixpoint reduce (totals : list Z * list Z)
    (futures : list (result (ndarray * ndarray))) : result (list Z * list Z) :=
  match futures with
  | [] => Ok totals
  | future :: rest =>
      cs ← future;
      totals' ← accumulate totals cs;
      reduce totals' rest
  end.

(** [multiprocessing.Pool(processes)]: for [None] the pool takes
    [os.cpu_count() or 1] processes; a number below 1 is refused. *)
Definition Pool (processes : option Z) : result unit :=
  match processes with
  | None => Ok ()
  | Some n => if n <? 1 then Raise ValueError else Ok ()
  end.

(** The parsed command line, as far as the driver reads it:
    [args.level] and [args.n_cores], defaults applied. *)
Record args : Type := Args {
  level : Z;
  n_cores : option Z
}.

(** The value [parse_args] gives [args.n_cores]: the number given
    with [--n-cores], or else the default [os.cpu_count()], which is
    the number of processors or [None] when it cannot be told.  A run
    without [--n-cores] on a machine with one processor has
    [n_cores = Some 1]. *)
Definition parsed_n_cores (given cpu_count : option Z) : option Z :=
  match given with
  | Some n => Some n
  | None => cpu_count
  end.

(** [SharedMemory.txn()]: the shared block is mapped with [np.memmap],
    which refuses to map an array without elements. *)
Definition txn (m : volume) : result volume :=
  match vdata m with
  | [] => Raise ValueError
  | _ :: _ => Ok m
  end.

(** [tifffile.imread(...).astype(np.uint16)] on an integer volume. *)
Definition astype_uint16 (raw : volume) : volume :=
  {| nz := nz raw; ny := ny raw; nx := nx raw;
     vdata := Num.to_uint16 <$> vdata raw |}.

(** [enumerate(files)] *)
Definition enumerate {A : Type} (l : list A) : list (nat * A) :=
  zip (seq 0 (length l)) l.

Section Driver.

Variable warp_round : Z -> nat -> nat -> Z * Z * Z -> Z * Z * Z.

(** The loop taken when [n_cores == 1].  The first component lists
    the planes handed to [do_plane], in order. *)
Fixpoint run_sequential (segmentation : volume) (totals : list Z * list Z)
    (work : list (nat * plane)) : list nat * result (list Z * list Z) :=
  match work with
  | [] => ([], Ok totals)
  | (z, filename) :: rest =>
      match cs ← do_plane warp_round filename (Z.of_nat z) segmentation;
            accumulate totals cs with
      | Ok totals' =>
          let '(done, r) := run_sequential segmentation totals' rest in
          (z :: done, r)
      | Raise e => ([z], Raise e)
      end
  end.

(** The pool branch: every plane is submitted, then the futures are
    read in submission order. *)
Definition run_pool (processes : option Z) (segmentation : volume)
    (totals : list Z * list Z) (work : list (nat * plane))
  : list nat * result (list Z * list Z) :=
  match Pool processes with
  | Raise e => ([], Raise e)
  | Ok _ =>
      let futures :=
        (fun zf => do_plane warp_round zf.2 (Z.of_nat zf.1) segmentation) <$> work in
      (work.*1, reduce totals futures)
  end.

(** Lines 83 to 111 of [main]: load and share the segmentation, look
    for the files, allocate the totals, accumulate. *)
Definition aggregate (a : args) (reference_segmentation : volume)
    (files : list plane) : list nat * result (list Z * list Z) :=
  let segmentation := astype_uint16 reference_segmentation in
  match txn segmentation with
  | Raise e => ([], Raise e)
  | Ok _ =>
      match files with
      | [] => ([], Raise IOError)
      | _ =>
          match Np.max (vdata segmentation) with
          | Raise e => ([], Raise e)
          | Ok top =>
              let totals := (Np.zeros (top + 1), Np.zeros (top + 1)) in
              if decide (n_cores a = Some 1)
              then run_sequential segmentation totals (enumerate files)
              else run_pool (n_cores a) segmentation totals (enumerate files)
          end
      end
  end.

End Driver.

(** ** Text *)

Module Fmt.

(** The double quote and the newline. *)
Definition dq : string := String (ascii_of_nat 34) EmptyString.
Definition nl : string := String (ascii_of_nat 10) EmptyString.

Definition quoted (s : string) : string := dq +:+ s +:+ dq.

(** [%d] *)
Definition d (v : Z) : string := NilZero.string_of_int (Z.to_int v).

(** A double: [Finite m e] is the number [m * 2^e]. *)
Inductive float64 : Type :=
  | Finite (m e : Z)
  | Infinite (negative : bool)
  | NaN.

(** The integer nearest to [num / den], ties to even, for
    [0 <= num] and [0 < den]. *)
Definition rne (num den : Z) : Z :=
  let q := num / den in
  let r := num mod den in
  if (den <? 2 * r) || ((2 * r =? den) && Z.odd q) then q + 1 else q.

(** [num * 2^(-e) / den] as a fraction of integers. *)
Definition scaled (num den e : Z) : Z * Z :=
  if 0 <=? e then (num, den * 2 ^ e) else (num * 2 ^ (- e), den).

(** [a / b] in binary64 for doubles [a] and [b] that hold integers.
    The quotient of two such numbers of magnitude below 2^64 is zero
    or a normal number, so rounding keeps 53 significant bits. *)
Definition fdiv (a b : Z) : float64 :=
  if b =? 0 then
    if a =? 0 then NaN else Infinite (a <? 0)
  else if a =? 0 then Finite 0 0
  else
    let num := Z.abs a in
    let den := Z.abs b in
    let e0 := Z.log2 num - Z.log2 den - 52 in
    let '(n0, d0) := scaled num den e0 in
    let e := if n0 / d0 <? 2 ^ 52 then e0 - 1 else e0 in
    let '(n, d) := scaled num den e in
    Finite (Z.sgn a * Z.sgn b * rne n d) e.

(** [np.int64] operands of a true division are converted to double
    first. *)
Definition true_divide (a b : Z) : float64 :=
  fdiv (Num.round53 a) (Num.round53 b).

Definition two_digits (v : Z) : string :=
  if v <? 10 then "0" +:+ d v else d v.

(** [%.2f]: the exact value of the double, rounded to two decimals
    with ties to even. *)
Definition f2 (x : float64) : string :=
  match x with
  | NaN => "nan"
  | Infinite negative => if negative then "-inf" else "inf"
  | Finite m e =>
      let '(n, dn) := scaled (Z.abs m * 100) 1 (- e) in
      let c := rne n dn in
      (if m <? 0 then "-" else "") +:+ d (c / 100) +:+ "." +:+ two_digits (c mod 100)
  end.

End Fmt.

(** ** The report *)

(** The values stored in the dictionary of the coarse path: Python
    tuples and lists of integers. *)
Inductive pyseq : Type :=
  | PyTuple (items : list Z)
  | PyList (items : list Z).

Definition items_of (v : pyseq) : list Z :=
  match v with PyTuple l | PyList l => l end.

(** [v[i]] *)
Definition getitem (v : pyseq) (i : nat) : result Z :=
  match items_of v !! i with
  | Some x => Ok x
  | None => Raise IndexError
  end.

(** [v[i] = x]: a tuple does not support item assignment. *)
Definition setitem (v : pyseq) (i : nat) (x : Z) : result pyseq :=
  match v with
  | PyTuple _ => Raise TypeError
  | PyList l => if decide (i < length l)%nat then Ok (PyList (<[i := x]> l))
                else Raise IndexError
  end.

(** [v[i] += x] *)
Definition iadd_item (v : pyseq) (i : nat) (x : Z) : result pyseq :=
  old ← getitem v i;
  setitem v i (Num.add64 old x).

(** The order of [sorted] on strings. *)
Definition str_le (s t : string) : Prop := String.leb s t = true.

#[global] Instance str_le_dec (s t : string) : Decision (str_le s t).
Proof. unfold str_le. apply _. Defined.

(** [np.where(total_counts > 0)[0]] *)
Definition where_positive (total_counts : list Z) : list nat :=
  filter (fun i => 0 < default 0 (total_counts !! i)) (seq 0 (length total_counts)).

(** [a[ids]] for an array of indices. *)
Fixpoint take_ids (a : list Z) (ids : list nat) : result (list Z) :=
  match ids with
  | [] => Ok []
  | i :: ids' =>
      match a !! i with
      | None => Raise IndexError
      | Some v => vs ← take_ids a ids'; Ok (v :: vs)
      end
  end.

Definition header7 : string :=
  Fmt.quoted "id" +:+ "," +:+ Fmt.quoted "region" +:+ "," +:+ Fmt.quoted "area"
  +:+ "," +:+ Fmt.quoted "total_intensity" +:+ "," +:+ Fmt.quoted "mean_intensity"
  +:+ Fmt.nl.

Definition header_coarse : string :=
  Fmt.quoted "region" +:+ "," +:+ Fmt.quoted "area" +:+ ", "
  +:+ Fmt.quoted "total_intensity" +:+ "," +:+ Fmt.quoted "mean_intensity"
  +:+ Fmt.nl.

Section Report.

(** The parsed region table is consumed through [br.name_per_id] and
    [br.get_level_name]. *)
Variable name_per_id : gmap Z string.
Variable get_level_name : Z -> Z -> string.

(** The name written at level 7. *)
Definition region7 (seg_id : Z) : string :=
  if seg_id =? 0 then "not in any region"
  else default ("id" +:+ Fmt.d seg_id) (name_per_id !! seg_id).

(** One line of the level 7 file. *)
Definition row7 (r : Z * Z * Z * Fmt.float64) : string :=
  let '(seg_id, count, total_intensity, mean_intensity) := r in
  Fmt.d seg_id +:+ "," +:+ Fmt.quoted (region7 seg_id) +:+ "," +:+ Fmt.d count
  +:+ ", " +:+ Fmt.d total_intensity +:+ ", " +:+ Fmt.f2 mean_intensity +:+ Fmt.nl.

(** The loop that fills the dictionary [d] of the coarse path. *)
Fixpoint group_loop (lvl : Z) (d : gmap string pyseq)
    (rows : list (Z * Z * Z)) : result (gmap string pyseq) :=
  match rows with
  | [] => Ok d
  | (seg_id, count, intensity) :: rest =>
      let name := get_level_name seg_id lvl in
      d' ← match d !! name with
            | Some v =>
                v1 ← iadd_item v 0 count;
                v2 ← iadd_item v1 1 intensity;
                Ok (<[name := v2]> d)
            | None => Ok (<[name := PyTuple [count; intensity]]> d)
            end;
      group_loop lvl d' rest
  end.

(** One line of a coarse file. *)
Definition row_coarse (d : gmap string pyseq) (name : string) : result string :=
  v ← match d !! name with Some v => Ok v | None => Raise KeyError end;
  count ← getitem v 0;
  total ← getitem v 1;
  Ok (Fmt.quoted name +:+ "," +:+ Fmt.d count +:+ "," +:+ Fmt.d total +:+ ","
      +:+ Fmt.f2 (Fmt.true_divide total count) +:+ Fmt.nl).

Fixpoint rows_coarse (d : gmap string pyseq) (names : list string) : result string :=
  match names with
  | [] => Ok ""%string
  | name :: rest =>
      line ← row_coarse d name;
      more ← rows_coarse d rest;
      Ok (line +:+ more)
  end.

(** Lines 116 to 120: the ids that survive, with their counts, sums
    and means. *)
Definition surviving (total_counts total_sums : list Z)
  : result (list (Z * Z * Z * Fmt.float64)) :=
  let seg_ids := where_positive total_counts in
  counts_per_id ← take_ids total_counts seg_ids;
  total_intensities_per_id ← take_ids total_sums seg_ids;
  let mean_intensity_per_id :=
    zip_with (fun s c => Fmt.fdiv (Num.round53 s) (Num.round53 c))
             total_intensities_per_id counts_per_id in
  Ok (zip (zip (zip (Z.of_nat <$> seg_ids) counts_per_id)
               total_intensities_per_id) mean_intensity_per_id).

(** Lines 116 to 150: the text written to the output file. *)
Definition report (lvl : Z) (total_counts total_sums : list Z) : result string :=
  rows ← surviving total_counts total_sums;
  if lvl =? 7 then
    Ok (header7 +:+ foldr (fun r out => row7 r +:+ out) ""%string rows)
  else
    d ← group_loop lvl ∅ (fst <$> rows);
    body ← rows_coarse d (merge_sort str_le (map_to_list d).*1);
    Ok (header_coarse +:+ body).

End Report.

Section Main.

Variable warp_round : Z -> nat -> nat -> Z * Z * Z -> Z * Z * Z.
Variable name_per_id : gmap Z string.
Variable get_level_name : Z -> Z -> string.

(** The planes handed to [do_plane], and the text of the output file
    or the exception that ends the run. *)
Definition main (a : args) (reference_segmentation : volume)
    (files : list plane) : list nat * result string :=
  let '(done, r) := aggregate warp_round a reference_segmentation files in
  (done, totals ← r; report name_per_id get_level_name (level a) totals.1 totals.2).

End Main.

(** ** What a plane contributes

    The pixels of a plane with their rounded warped coordinates, and
    those that resolve to a given label. *)

Definition zsum (l : list Z) : Z := foldr Z.add 0 l.

Definition uint16_volume (m : volume) : Prop :=
  Forall (fun v => 0 <= v < 2 ^ 16) (vdata m).

Definition plane_wf (pl : plane) : Prop :=
  length (pdata pl) = (height pl * width pl)%nat.

Definition is_max (top : Z) (l : list Z) : Prop :=
  top ∈ l ∧ Forall (fun v => v <= top) l.

Section Contribution.

Variable warp_round : Z -> nat -> nat -> Z * Z * Z -> Z * Z * Z.

Definition pixels (pl : plane) (z : Z) : list (Z * Z * Z * Z) :=
  zip (warp_round z (height pl) (width pl) <$> Np.mgrid z (height pl) (width pl))
      (pdata pl).

(** The pixels that pass the mask. *)
Definition masked (m : volume) (pl : plane) (z : Z) : list (Z * Z * Z * Z) :=
  filter (fun p => in_bounds m p.1 = true) (pixels pl z).

Definition resolves (m : volume) (l : Z) (p : Z * Z * Z * Z) : Prop :=
  in_bounds m p.1 = true ∧ vol_get m p.1 = l.

#[global] Instance resolves_dec m l p : Decision (resolves m l p).
Proof. unfold resolves. apply _. Defined.

Definition hits (m : volume) (l : Z) (pl : plane) (z : Z) : list (Z * Z * Z * Z) :=
  filter (resolves m l) (pixels pl z).

End Contribution.

(** A rounded warped coordinate lies inside the volume when, on each
    of the three axes, it is at least 0 and below the size of the
    axis. *)
Definition inside (m : volume) (c : Z * Z * Z) : Prop :=
  (0 <= c.1.1 /\ c.1.1 < nz m)
  /\ (0 <= c.1.2 /\ c.1.2 < ny m)
  /\ (0 <= c.2 /\ c.2 < nx m).

#[global] Instance inside_dec m c : Decision (inside m c).
Proof. unfold inside. apply _. Defined.

Section Landing.

Variable warp_round : Z -> nat -> nat -> Z * Z * Z -> Z * Z * Z.

(** The pixels of a plane that land inside the volume, and those of
    them that land on a cell of label [l]. *)
Definition kept (m : volume) (pl : plane) (z : Z) : list (Z * Z * Z * Z) :=
  filter (fun p => inside m p.1) (pixels warp_round pl z).

Definition landed (m : volume) (l : Z) (pl : plane) (z : Z) : list (Z * Z * Z * Z) :=
  filter (fun p => inside m p.1 /\ vol_get m p.1 = l) (pixels warp_round pl z).

End Landing.

(** A plane result whose vectors are as long as the totals, as the
    results of [do_plane] over one volume are. *)
Definition shaped (n_counts n_sums : nat) (cs : ndarray * ndarray) : Prop :=
  length (values cs.1) = n_counts /\ length (values cs.2) = n_sums.

(** Every value of the dictionary is a pair built by
    [d[level] = (count, intensity)]. *)
Definition tuples (d : gmap string pyseq) : Prop :=
  forall name v, d !! name = Some v -> exists c s, v = PyTuple [c; s].

(** The line of a coarse file for a group, as the format of line 148
    lays it out. *)
Definition coarse_line (name : string) (count total : Z) : string :=
  Fmt.quoted name +:+ "," +:+ Fmt.d count +:+ "," +:+ Fmt.d total +:+ ","
  +:+ Fmt.f2 (Fmt.true_divide total count) +:+ Fmt.nl.

(** The surviving ids with their counts and sums, as the coarse path
    reads them. *)
Definition survivors (total_counts total_sums : list Z) : list (Z * Z * Z) :=
  (fun i => (Z.of_nat i, default 0 (total_counts !! i), default 0 (total_sums !! i)))
    <$> where_positive total_counts.

(** ** Sample inputs

    The scenarios of the specification: a 2x2 plane over a 1x2x2
    volume under the identity transform, and a table in which the ids
    10 and 11 share the ancestor CortexA. *)

Definition identity_warp (z : Z) (h w : nat) (c : Z * Z * Z) : Z * Z * Z := c.

(** A transform that sends every pixel outside any volume. *)
Definition far_warp (z : Z) (h w : nat) (c : Z * Z * Z) : Z * Z * Z := (-1, -1, -1).

Definition scenario_plane : plane := Plane 2 2 [10; 20; 30; 40].
Definition scenario_volume : volume := Volume 1 2 2 [1; 1; 2; 2].

Definition second_plane : plane := Plane 2 2 [1; 2; 3; 4].

(** A plane of 64-bit samples over a volume with the single label 0. *)
Definition bright_plane : plane := Plane 1 2 [2 ^ 53; 1].
Definition bright_row : plane := Plane 1 3 [2 ^ 53; 1; 1].
Definition flat_volume : volume := Volume 1 1 3 [0; 0; 0].

Definition cortex_names : gmap Z string :=
  <[10 := "CortexA1"%string]> (<[11 := "CortexA2"%string]> ∅).

Definition cortex_level (seg_id lvl : Z) : string :=
  if (seg_id =? 10) || (seg_id =? 11) then "CortexA" else "root".

(** Totals in which only the ids 10 and 11 were hit. *)
Definition cortex_counts : list Z := [0; 0; 0; 0; 0; 0; 0; 0; 0; 0; 3; 5].
Definition cortex_sums : list Z := [0; 0; 0; 0; 0; 0; 0; 0; 0; 0; 30; 70].

(** The header of the coarse levels in the words of the
    specification. *)
Definition spec_header_coarse : string :=
  Fmt.quoted "region" +:+ "," +:+ Fmt.quoted "area" +:+ ","
  +:+ Fmt.quoted "total_intensity" +:+ "," +:+ Fmt.quoted "mean_intensity"
  +:+ Fmt.nl.

(** * Proofs *)

(** ** Fallible computations *)

Lemma bind_Ok {A B : Type} (r : result A) (k : A -> result B) (b : B) :
  r ≫= k = Ok b -> exists a, r = Ok a /\ k a = Ok b.
Proof. destruct r as [a|e]; [by exists a|done]. Qed.

(** ** Machine numbers *)

Lemma to_int64_small v : - 2 ^ 63 <= v < 2 ^ 63 -> Num.to_int64 v = v.
Proof.
  intros H. unfold Num.to_int64.
  rewrite Z.mod_small; lia.
Qed.

Lemma to_int64_add a b : Num.to_int64 (Num.to_int64 a + b) = Num.to_int64 (a + b).
Proof.
  unfold Num.to_int64. f_equal.
  replace ((a + 2 ^ 63) mod 2 ^ 64 - 2 ^ 63 + b + 2 ^ 63)
    with ((a + 2 ^ 63) mod 2 ^ 64 + b) by lia.
  rewrite Zplus_mod_idemp_l. f_equal. lia.
Qed.

Lemma round53_exact v : Z.abs v <= 2 ^ 53 -> Num.round53 v = v.
Proof.
  intros H. unfold Num.round53.
  destruct (Z.leb_spec (Z.log2 (Z.abs v) - 52) 0) as [|Hk]; [done|].
  assert (Hlog : 53 <= Z.log2 (Z.abs v)) by lia.
  assert (Hpos : 0 < Z.abs v).
  { destruct (Z.eq_dec (Z.abs v) 0) as [E|]; [rewrite E in Hlog; simpl in Hlog|]; lia. }
  apply Z.log2_le_pow2 in Hlog; [|done].
  assert (E : Z.abs v = 2 ^ 53) by lia.
  rewrite E. destruct (Z.abs_spec v) as [[? Hv]|[? Hv]].
  - rewrite Hv in E. subst v. reflexivity.
  - assert (v = - 2 ^ 53) by lia. subst v. reflexivity.
Qed.

(** ** Binning *)

(** A fold of in-place updates, read at one slot, is the fold of the
    updates aimed at that slot. *)
Lemma fold_alter_lookup {B : Type} (f : B -> Z -> Z) (key : B -> nat)
    (xs : list B) (init : list Z) (i : nat) :
  fold_left (fun ans b => alter (f b) (key b) ans) xs init !! i
  = (fun s0 => fold_left (fun s b => f b s) (filter (fun b => key b = i) xs) s0)
      <$> init !! i.
Proof.
  revert init. induction xs as [|b xs IH]; intros init; simpl.
  - by destruct (init !! i).
  - rewrite IH. rewrite filter_cons. case_decide as Hk.
    + subst i. rewrite list_lookup_alter_eq. by destruct (init !! key b).
    + by rewrite list_lookup_alter_ne.
Qed.

Lemma fold_alter_length {B : Type} (f : B -> Z -> Z) (key : B -> nat)
    (xs : list B) (init : list Z) :
  length (fold_left (fun ans b => alter (f b) (key b) ans) xs init) = length init.
Proof.
  revert init. induction xs as [|b xs IH]; intros init; simpl; [done|].
  by rewrite IH, length_alter.
Qed.

Lemma fold_incr {B : Type} (xs : list B) (c : Z) :
  fold_left (fun s (_ : B) => Num.add64 s 1) xs (Num.to_int64 c)
  = Num.to_int64 (c + Z.of_nat (length xs)).
Proof.
  revert c. induction xs as [|b xs IH]; intros c.
  - cbn [fold_left length]. f_equal. lia.
  - cbn [fold_left length]. unfold Num.add64 at 2.
    rewrite to_int64_add, IH. f_equal. lia.
Qed.

Lemma fold_incr_exact {B : Type} (xs : list B) :
  Z.of_nat (length xs) < 2 ^ 63 ->
  fold_left (fun s (_ : B) => Num.add64 s 1) xs 0 = Z.of_nat (length xs).
Proof.
  intros H. change 0 with (Num.to_int64 0) at 1.
  rewrite fold_incr. apply to_int64_small. lia.
Qed.

Lemma zsum_abs_nonneg (l : list Z) : 0 <= zsum (Z.abs <$> l).
Proof.
  induction l as [|a l IH]; [done|].
  change (0 <= Z.abs a + zsum (Z.abs <$> l)). lia.
Qed.

(** While the magnitudes met so far stay within 2^53, the cast to
    [int64], the conversion to double and the sum in double are all
    exact. *)
Lemma fold_weights_exact {A : Type} (ps : list (A * Z)) (s : Z) :
  Z.abs s + zsum (Z.abs <$> ps.*2) <= 2 ^ 53 ->
  fold_left (fun s p => Num.fadd s (Num.round53 (Num.to_int64 p.2))) ps s
  = s + zsum ps.*2.
Proof.
  revert s. induction ps as [|[a w] ps IH]; intros s H.
  { unfold zsum. simpl. lia. }
  change (Z.abs s + (Z.abs w + zsum (Z.abs <$> ps.*2)) <= 2 ^ 53) in H.
  change (fold_left (fun s p => Num.fadd s (Num.round53 (Num.to_int64 p.2))) ps
            (Num.fadd s (Num.round53 (Num.to_int64 w))) = s + (w + zsum ps.*2)).
  pose proof (zsum_abs_nonneg ps.*2).
  rewrite (to_int64_small w) by lia.
  rewrite (round53_exact w) by lia.
  unfold Num.fadd. rewrite (round53_exact (s + w)) by lia.
  rewrite IH; lia.
Qed.

Lemma fold_left_max_le (l : list Z) (v t : Z) :
  v <= t -> Forall (fun x => x <= t) l -> fold_left Z.max l v <= t.
Proof.
  revert v. induction l as [|x l IH]; intros v Hv Hl; simpl; [done|].
  inversion Hl; subst. apply IH; [lia|done].
Qed.

Lemma fold_left_max_init (l : list Z) (v : Z) : v <= fold_left Z.max l v.
Proof.
  revert v. induction l as [|y l IH]; intros v; simpl; [lia|].
  etrans; [|apply IH]. lia.
Qed.

Lemma fold_left_max_ge (l : list Z) (v x : Z) :
  x ∈ l -> x <= fold_left Z.max l v.
Proof.
  revert v. induction l as [|y l IH]; intros v Hx; simpl.
  - by apply elem_of_nil in Hx.
  - apply elem_of_cons in Hx as [->|Hx]; [|by apply IH].
    etrans; [|apply fold_left_max_init]. lia.
Qed.

Lemma np_max_is_max (l : list Z) (top : Z) : is_max top l -> Np.max l = Ok top.
Proof.
  intros [Hin Hle]. destruct l as [|v l]; [by apply elem_of_nil in Hin|].
  simpl. f_equal. inversion Hle; subst.
  apply Z.le_antisymm.
  - by apply fold_left_max_le.
  - apply elem_of_cons in Hin as [->|Hin].
    + apply fold_left_max_init.
    + by apply fold_left_max_ge.
Qed.

Lemma bincount_size_bounded (x : list Z) (top : Z) :
  0 <= top -> Forall (fun v => v <= top) x ->
  Np.bincount_size x (top + 1) = Z.to_nat (top + 1).
Proof.
  intros Htop Hx. destruct x as [|v x]; [done|]. simpl.
  inversion Hx; subst.
  pose proof (fold_left_max_le x v top ltac:(done) ltac:(done)).
  f_equal. lia.
Qed.

(** ** Masking *)

Lemma select_aux_zip {A B : Type} (f : A -> bool) (cs : list A) (ws : list B) :
  length cs = length ws ->
  Np.select_aux (f <$> cs) cs = (filter (fun p => f p.1 = true) (zip cs ws)).*1
  /\ Np.select_aux (f <$> cs) ws = (filter (fun p => f p.1 = true) (zip cs ws)).*2.
Proof.
  revert ws. induction cs as [|c cs IH]; intros [|w ws] Hlen; try done.
  simpl in Hlen. destruct (IH ws) as [IH1 IH2]; [lia|].
  cbn [fmap list_fmap Np.select_aux zip zip_with].
  change (list_fmap A bool f cs) with (f <$> cs).
  change (zip_with pair cs ws) with (zip cs ws).
  rewrite filter_cons. cbn [fst].
  destruct (f c) eqn:Hc.
  - rewrite decide_True by done. rewrite !fmap_cons. cbn [fst snd].
    by rewrite IH1, IH2.
  - rewrite decide_False by done. by rewrite IH1, IH2.
Qed.

Lemma grid_length {A : Type} (f : nat -> nat -> A) (s h w : nat) :
  length (y ← seq s h; f y <$> seq 0 w) = (h * w)%nat.
Proof.
  revert s. induction h as [|h IH]; intros s; [done|].
  cbn [seq]. rewrite bind_cons, length_app, length_fmap, length_seq, IH. lia.
Qed.

Lemma mgrid_length (z : Z) (h w : nat) : length (Np.mgrid z h w) = (h * w)%nat.
Proof. apply (grid_length (fun y x => (z, Z.of_nat y, Z.of_nat x))). Qed.

Lemma fold_left_labelled {A B C : Type} (step : C -> B -> C) (g : A -> B)
    (V : list A) (init : C) :
  fold_left step (g <$> V) init = fold_left (fun a p => step a (g p)) V init.
Proof. revert init. induction V as [|p V IH]; intros init; simpl; [done|]. apply IH. Qed.

(** ** The plane processor *)

Lemma in_bounds_inside (m : volume) (c : Z * Z * Z) :
  in_bounds m c = true <-> inside m c.
Proof.
  destruct c as [[z y] x]. unfold in_bounds, inside. cbn [fst snd].
  rewrite !andb_true_iff, !Z.leb_le, !Z.ltb_lt. tauto.
Qed.

Section PlaneFacts.

Variable warp_round : Z -> nat -> nat -> Z * Z * Z -> Z * Z * Z.

Lemma do_plane_masked (pl : plane) (z : Z) (m : volume) (top : Z) :
  plane_wf pl -> Np.max (vdata m) = Ok top ->
  do_plane warp_round pl z m
  = Ok (Np.bincount (vol_get m <$> (masked warp_round m pl z).*1) (top + 1),
        Np.bincount_weights (vol_get m <$> (masked warp_round m pl z).*1)
          (Num.to_int64 <$> (masked warp_round m pl z).*2) (top + 1)).
Proof.
  intros Hwf Hmax. unfold do_plane. rewrite Hmax. cbn [mbind result_bind].
  set (cs := warp_round z (height pl) (width pl) <$> Np.mgrid z (height pl) (width pl)).
  assert (Hlen : length cs = length (pdata pl)).
  { unfold cs. rewrite length_fmap, mgrid_length. by rewrite Hwf. }
  destruct (select_aux_zip (in_bounds m) cs (pdata pl) Hlen) as [E1 E2].
  unfold Np.select. rewrite !length_fmap, Nat.eqb_refl.
  fold cs. rewrite Hlen, Nat.eqb_refl.
  cbn [mbind result_bind]. by rewrite E1, E2.
Qed.

Lemma vol_get_le (m : volume) (c : Z * Z * Z) (top : Z) :
  0 <= top -> Forall (fun v => v <= top) (vdata m) -> vol_get m c <= top.
Proof.
  intros Htop Hall. unfold vol_get. destruct c as [[z y] x].
  destruct (vdata m !! _) as [v|] eqn:E; simpl; [|done].
  rewrite Forall_forall in Hall. apply Hall.
  eapply list_elem_of_lookup_2; eauto.
Qed.

Lemma vol_get_nonneg (m : volume) (c : Z * Z * Z) :
  uint16_volume m -> 0 <= vol_get m c.
Proof.
  intros Hall. unfold vol_get. destruct c as [[z y] x].
  destruct (vdata m !! _) as [v|] eqn:E; simpl; [|done].
  unfold uint16_volume in Hall. rewrite Forall_forall in Hall.
  apply Hall. eapply list_elem_of_lookup_2; eauto.
Qed.

Lemma masked_label (m : volume) (pl : plane) (z l : Z) :
  uint16_volume m -> 0 <= l ->
  filter (fun p => Z.to_nat (vol_get m p.1) = Z.to_nat l) (masked warp_round m pl z)
  = hits warp_round m l pl z.
Proof.
  intros Hm Hl. unfold masked, hits. rewrite list_filter_filter.
  apply list_filter_iff. intros p. unfold resolves.
  pose proof (vol_get_nonneg m p.1 Hm). split.
  - intros [? ?]. split; [done|lia].
  - intros [? ?]. split; [|done]. congruence.
Qed.

Lemma bincount_lookup {A : Type} (g : A -> Z) (V : list A) (n : Z) (i : nat) :
  values (Np.bincount (g <$> V) n) !! i
  = (fun s0 => fold_left (fun s (_ : A) => Num.add64 s 1)
                 (filter (fun p => Z.to_nat (g p) = i) V) s0)
      <$> replicate (Np.bincount_size (g <$> V) n) 0 !! i.
Proof.
  unfold Np.bincount, values. rewrite fold_left_labelled.
  apply (fold_alter_lookup (fun (_ : A) c => Num.add64 c 1)
           (fun p => Z.to_nat (g p))).
Qed.

(** The values of a weighted [np.bincount], whatever its dtype. *)
Lemma bincount_weights_fold (x w : list Z) (n : Z) :
  values (Np.bincount_weights x w n)
  = fold_left (fun ans vw =>
                 alter (fun s => Num.fadd s (Num.round53 vw.2)) (Z.to_nat vw.1) ans)
              (zip x w) (replicate (Np.bincount_size x n) 0).
Proof. by destruct x. Qed.

Lemma bincount_weights_lookup {A : Type} (g : A * Z -> Z) (V : list (A * Z))
    (n : Z) (i : nat) :
  values (Np.bincount_weights (g <$> V) (Num.to_int64 <$> V.*2) n) !! i
  = (fun s0 => fold_left (fun s p => Num.fadd s (Num.round53 (Num.to_int64 p.2)))
                 (filter (fun p => Z.to_nat (g p) = i) V) s0)
      <$> replicate (Np.bincount_size (g <$> V) n) 0 !! i.
Proof.
  rewrite bincount_weights_fold.
  assert (E : zip (g <$> V) (Num.to_int64 <$> V.*2)
              = (fun p => (g p, Num.to_int64 p.2)) <$> V).
  { clear. induction V as [|p V IH]; [done|]. simpl. f_equal. apply IH. }
  rewrite E, fold_left_labelled.
  apply (fold_alter_lookup
           (fun (p : A * Z) s => Num.fadd s (Num.round53 (Num.to_int64 p.2)))
           (fun p => Z.to_nat (g p))).
Qed.

Lemma bincount_length (x : list Z) (n : Z) :
  length (values (Np.bincount x n)) = Np.bincount_size x n.
Proof.
  unfold Np.bincount, values.
  rewrite (fold_alter_length (fun (_ : Z) c => Num.add64 c 1) Z.to_nat).
  apply length_replicate.
Qed.

Lemma bincount_weights_length (x w : list Z) (n : Z) :
  length (values (Np.bincount_weights x w n)) = Np.bincount_size x n.
Proof.
  rewrite bincount_weights_fold.
  rewrite (fold_alter_length
             (fun (vw : Z * Z) s => Num.fadd s (Num.round53 vw.2))
             (fun vw => Z.to_nat vw.1)).
  apply length_replicate.
Qed.

Lemma masked_kept (m : volume) (pl : plane) (z : Z) :
  masked warp_round m pl z = kept warp_round m pl z.
Proof. apply list_filter_iff. intros p. apply in_bounds_inside. Qed.

Lemma hits_landed (m : volume) (l : Z) (pl : plane) (z : Z) :
  hits warp_round m l pl z = landed warp_round m l pl z.
Proof.
  apply list_filter_iff. intros p. unfold resolves.
  by rewrite in_bounds_inside.
Qed.

(** The result of [do_plane], label by label.  The counts are a
    vector of integers; the sums are a vector of integers when no
    pixel lands inside the volume and a vector of doubles otherwise,
    exact while the magnitudes summed stay within 2^53. *)
Lemma do_plane_by_label (pl : plane) (z : Z) (m : volume) (top : Z) :
  plane_wf pl -> uint16_volume m -> is_max top (vdata m) ->
  Z.of_nat (height pl * width pl) < 2 ^ 63 ->
  exists counts sums,
    do_plane warp_round pl z m = Ok (I64 counts, sums)
    /\ length counts = Z.to_nat (top + 1)
    /\ length (values sums) = Z.to_nat (top + 1)
    /\ (is_float sums = false <-> kept warp_round m pl z = [])
    /\ forall l, 0 <= l <= top ->
         counts !! Z.to_nat l
           = Some (Z.of_nat (length (landed warp_round m l pl z)))
         /\ (zsum (Z.abs <$> (landed warp_round m l pl z).*2) <= 2 ^ 53 ->
             values sums !! Z.to_nat l
               = Some (zsum (landed warp_round m l pl z).*2)).
Proof.
  intros Hwf Hm [Hin Hle] Hsize.
  assert (Htop : 0 <= top).
  { unfold uint16_volume in Hm. rewrite Forall_forall in Hm.
    specialize (Hm top Hin). lia. }
  set (V := masked warp_round m pl z).
  set (g := fun p : Z * Z * Z * Z => vol_get m p.1).
  assert (Eseg : vol_get m <$> V.*1 = g <$> V).
  { by rewrite <- list_fmap_compose. }
  assert (Hsz : Np.bincount_size (g <$> V) (top + 1) = Z.to_nat (top + 1)).
  { apply bincount_size_bounded; [done|].
    apply Forall_fmap, Forall_forall. intros p _. by apply vol_get_le. }
  eexists (values (Np.bincount (g <$> V) (top + 1))),
          (Np.bincount_weights (g <$> V) (Num.to_int64 <$> V.*2) (top + 1)).
  split; [|split; [|split; [|split]]].
  - rewrite (do_plane_masked pl z m top Hwf (np_max_is_max _ _ (conj Hin Hle))).
    fold V. by rewrite Eseg.
  - by rewrite bincount_length.
  - by rewrite bincount_weights_length.
  - rewrite <- masked_kept. fold V. by destruct V.
  - intros l [Hl0 Hl1]. rewrite <- hits_landed.
    assert (Hlt : (Z.to_nat l < Z.to_nat (top + 1))%nat) by lia.
    split.
    + rewrite bincount_lookup, Hsz, lookup_replicate_2 by done.
      cbn [fmap option_fmap option_map]. f_equal.
      change (fun p : Z * Z * Z * Z => Z.to_nat (g p) = Z.to_nat l)
        with (fun p : Z * Z * Z * Z => Z.to_nat (vol_get m p.1) = Z.to_nat l).
      unfold V. rewrite masked_label by done.
      apply fold_incr_exact.
      pose proof (length_filter (resolves m l) (pixels warp_round pl z)) as Hf.
      fold (hits warp_round m l pl z) in Hf.
      assert (length (pixels warp_round pl z) <= height pl * width pl)%nat.
      { unfold pixels. rewrite length_zip_with, length_fmap, mgrid_length. lia. }
      lia.
    + intros Hb.
      rewrite bincount_weights_lookup, Hsz, lookup_replicate_2 by done.
      cbn [fmap option_fmap option_map]. f_equal.
      change (fun p : Z * Z * Z * Z => Z.to_nat (g p) = Z.to_nat l)
        with (fun p : Z * Z * Z * Z => Z.to_nat (vol_get m p.1) = Z.to_nat l).
      unfold V. rewrite masked_label by done.
      rewrite fold_weights_exact; simpl; lia.
Qed.

End PlaneFacts.

(** The scenario of the specification: counts 2 and 2, sums 30 and 70. *)
Example do_plane_scenario :
  do_plane identity_warp scenario_plane 0 scenario_volume
  = Ok (I64 [0; 2; 2], F64 [0; 30; 70]).
Proof. reflexivity. Qed.

(** A pixel that lands one unit beyond an axis is left out. *)
Example do_plane_out_of_bounds :
  do_plane identity_warp (Plane 2 3 [10; 20; 5; 30; 40; 5]) 0 scenario_volume
  = Ok (I64 [0; 2; 2], F64 [0; 30; 70]).
Proof. reflexivity. Qed.

(** C1: for every label, [sums] holds the sum of the intensities of
    the pixels that land inside the volume on that label.  On a plane
    of two pixels of intensities 2^53 and 1, both inside the volume
    and on label 0, [do_plane] counts the two pixels but returns
    [sums[0] = 2^53], one less than the sum of their intensities: the
    weights were cast to 64-bit integers and then summed in double. *)
Lemma do_plane_sum_inexact :
  do_plane identity_warp bright_plane 0 flat_volume = Ok (I64 [2], F64 [2 ^ 53])
  /\ landed identity_warp flat_volume 0 bright_plane 0
     = [((0, 0, 0), 2 ^ 53); ((0, 0, 1), 1)]
  /\ zsum (landed identity_warp flat_volume 0 bright_plane 0).*2 = 2 ^ 53 + 1.
Proof. repeat split; vm_compute; reflexivity. Qed.

(** ** The load *)

Lemma to_uint16_idem (v : Z) : Num.to_uint16 (Num.to_uint16 v) = Num.to_uint16 v.
Proof. unfold Num.to_uint16. apply Z.mod_mod. lia. Qed.

Lemma astype_uint16_idem (raw : volume) :
  astype_uint16 (astype_uint16 raw) = astype_uint16 raw.
Proof.
  unfold astype_uint16. simpl. f_equal.
  rewrite <- list_fmap_compose. apply list_fmap_ext.
  intros _ v _. apply to_uint16_idem.
Qed.

Lemma astype_uint16_range (raw : volume) : uint16_volume (astype_uint16 raw).
Proof.
  unfold uint16_volume, astype_uint16. simpl.
  apply Forall_fmap, Forall_forall. intros v _. simpl.
  unfold Num.to_uint16. apply Z.mod_pos_bound. lia.
Qed.

Lemma vol_get_astype (raw : volume) (c : Z * Z * Z) :
  vol_get (astype_uint16 raw) c = vol_get raw c mod 65536.
Proof.
  destruct c as [[z y] x]. unfold vol_get, astype_uint16. cbn [vdata ny nx].
  rewrite list_lookup_fmap. by destruct (vdata raw !! _).
Qed.

Lemma txn_loaded (raw : volume) :
  vdata raw <> [] -> txn (astype_uint16 raw) = Ok (astype_uint16 raw).
Proof.
  intros Hv. unfold txn, astype_uint16. cbn [vdata]. by destruct (vdata raw).
Qed.

Lemma txn_Raise (m : volume) (e : exn) :
  txn m = Raise e -> vdata m = [] /\ e = ValueError.
Proof. unfold txn. destruct (vdata m); [by intros [= <-]|done]. Qed.

Example segmentation_alias :
  vdata (astype_uint16 (Volume 1 1 3 [65537; 1; 70000])) = [1; 1; 4464].
Proof. reflexivity. Qed.

(** ** The driver *)

Section DriverFacts.

Variable warp_round : Z -> nat -> nat -> Z * Z * Z -> Z * Z * Z.
Variable name_per_id : gmap Z string.
Variable get_level_name : Z -> Z -> string.

(** C8: with a worker count of zero or less the run fails and no
    plane has been handed to [do_plane] or accumulated; when there are
    files and a volume, the failure is the [ValueError] of the pool. *)
Theorem nonpositive_workers_rejected (a : args) (raw : volume)
    (files : list plane) (n : Z) :
  n_cores a = Some n -> n <= 0 ->
  (main warp_round name_per_id get_level_name a raw files).1 = []
  /\ (exists e, (main warp_round name_per_id get_level_name a raw files).2 = Raise e)
  /\ (files <> [] -> vdata raw <> [] ->
      (main warp_round name_per_id get_level_name a raw files).2 = Raise ValueError).
Proof.
  intros Hn Hle. unfold main, aggregate.
  destruct (txn (astype_uint16 raw)) as [m|e] eqn:Etxn.
  2:{ apply txn_Raise in Etxn as [_ ->]. cbn [fst snd mbind result_bind].
      split; [done|]. split; [by eexists|done]. }
  destruct files as [|f files].
  { simpl. split; [done|]. split; [by eexists|]. by intros []. }
  destruct (Np.max (vdata (astype_uint16 raw))) as [top|e] eqn:Emax.
  - rewrite Hn. rewrite decide_False by (intros [= ->]; lia).
    unfold run_pool, Pool.
    destruct (Z.ltb_spec n 1); [|lia]. simpl.
    split; [done|]. split; [by eexists|done].
  - simpl. split; [done|]. split; [by eexists|].
    intros _ Hv. exfalso. unfold astype_uint16 in Emax. simpl in Emax.
    destruct (vdata raw); [done|]. discriminate Emax.
Qed.

End DriverFacts.

(** ** The reduce loop *)

Lemma iadd_int64_shaped (a : list Z) (b : ndarray) :
  length (values b) = length a ->
  iadd_int64 a b
  = if is_float b then Raise TypeError else Ok (zip_with Num.add64 a (values b)).
Proof.
  intros H. destruct b as [y|y]; simpl in *; [|done].
  by rewrite H, Nat.eqb_refl.
Qed.

Lemma accumulate_shaped (totals : list Z * list Z) (cs : ndarray * ndarray) :
  shaped (length totals.1) (length totals.2) cs ->
  accumulate totals cs
  = if is_float cs.1 || is_float cs.2 then Raise TypeError
    else Ok (zip_with Num.add64 totals.1 (values cs.1),
             zip_with Num.add64 totals.2 (values cs.2)).
Proof.
  intros [H1 H2]. unfold accumulate.
  rewrite (iadd_int64_shaped _ _ H1), (iadd_int64_shaped _ _ H2).
  by destruct (is_float cs.1), (is_float cs.2).
Qed.

Lemma add64_swap (a x y : Z) :
  Num.add64 (Num.add64 a x) y = Num.add64 (Num.add64 a y) x.
Proof.
  unfold Num.add64. rewrite !to_int64_add. f_equal. lia.
Qed.

Lemma zip_with_add64_swap (a x y : list Z) :
  zip_with Num.add64 (zip_with Num.add64 a x) y
  = zip_with Num.add64 (zip_with Num.add64 a y) x.
Proof.
  revert x y. induction a as [|u a IH]; intros [|v x] [|w y]; try done.
  simpl. by rewrite add64_swap, IH.
Qed.

(** C6: the reduce loop gives the same outcome for every order of the
    plane results, whenever their vectors are as long as the totals:
    the same totals when every vector is of integers, and the same
    [TypeError] when some vector is of doubles. *)
Theorem reduce_order_insensitive (totals : list Z * list Z)
    (rs rs' : list (ndarray * ndarray)) :
  Forall (shaped (length totals.1) (length totals.2)) rs ->
  rs ≡ₚ rs' ->
  reduce totals (Ok <$> rs) = reduce totals (Ok <$> rs').
Proof.
  intros Hs Hp. revert totals Hs.
  induction Hp as [|x l l' Hp IH|x y l|l l' l'' Hp1 IH1 Hp2 IH2];
    intros totals Hs.
  - reflexivity.
  - apply Forall_cons in Hs as [Hx Hl].
    cbn [fmap list_fmap reduce mbind result_bind].
    rewrite (accumulate_shaped _ _ Hx).
    destruct (is_float x.1 || is_float x.2); [done|].
    cbn [mbind result_bind]. apply IH.
    destruct Hx as [H1 H2]. cbn [fst snd].
    by rewrite !length_zip_with, H1, H2, !Nat.min_id.
  - apply Forall_cons in Hs as [Hy Hs]. apply Forall_cons in Hs as [Hx Hl].
    cbn [fmap list_fmap reduce mbind result_bind].
    rewrite (accumulate_shaped _ _ Hx), (accumulate_shaped _ _ Hy).
    assert (Hlen : forall (cs : ndarray * ndarray),
      shaped (length totals.1) (length totals.2) cs ->
      length (zip_with Num.add64 totals.1 (values cs.1)) = length totals.1
      /\ length (zip_with Num.add64 totals.2 (values cs.2)) = length totals.2).
    { intros cs [H1 H2]. by rewrite !length_zip_with, H1, H2, !Nat.min_id. }
    destruct (is_float x.1 || is_float x.2) eqn:Fx,
             (is_float y.1 || is_float y.2) eqn:Fy;
      cbn [mbind result_bind].
    + done.
    + rewrite accumulate_shaped; cbn [fst snd].
      * by rewrite Fx.
      * destruct (Hlen y Hy) as [-> ->]. done.
    + rewrite accumulate_shaped; cbn [fst snd].
      * by rewrite Fy.
      * destruct (Hlen x Hx) as [-> ->]. done.
    + rewrite !accumulate_shaped; cbn [fst snd].
      * rewrite Fx, Fy. cbn [mbind result_bind].
        by rewrite (zip_with_add64_swap totals.1), (zip_with_add64_swap totals.2).
      * destruct (Hlen x Hx) as [-> ->]. done.
      * destruct (Hlen y Hy) as [-> ->]. done.
  - rewrite IH1 by done. apply IH2. by rewrite <- Hp1.
Qed.

Lemma reduce_order_insensitive_witness :
  (Forall (shaped (length ([0; 0; 0], [0; 0; 0]).1) (length ([0; 0; 0], [0; 0; 0]).2))
     [(I64 [0; 2; 2], I64 [0; 30; 70]); (I64 [0; 1; 3], I64 [0; 5; 9])]
   /\ [(I64 [0; 2; 2], I64 [0; 30; 70]); (I64 [0; 1; 3], I64 [0; 5; 9])]
      ≡ₚ [(I64 [0; 1; 3], I64 [0; 5; 9]); (I64 [0; 2; 2], I64 [0; 30; 70])])
  /\ reduce ([0; 0; 0], [0; 0; 0])
       (Ok <$> [(I64 [0; 2; 2], I64 [0; 30; 70]); (I64 [0; 1; 3], I64 [0; 5; 9])])
     = reduce ([0; 0; 0], [0; 0; 0])
       (Ok <$> [(I64 [0; 1; 3], I64 [0; 5; 9]); (I64 [0; 2; 2], I64 [0; 30; 70])]).
Proof.
  assert (H1 : Forall (shaped 3 3)
                 [(I64 [0; 2; 2], I64 [0; 30; 70]); (I64 [0; 1; 3], I64 [0; 5; 9])]).
  { repeat constructor. }
  assert (H2 : [(I64 [0; 2; 2], I64 [0; 30; 70]); (I64 [0; 1; 3], I64 [0; 5; 9])]
               ≡ₚ [(I64 [0; 1; 3], I64 [0; 5; 9]); (I64 [0; 2; 2], I64 [0; 30; 70])]).
  { apply perm_swap. }
  split; [done|].
  exact (reduce_order_insensitive ([0; 0; 0], [0; 0; 0]) _ _ H1 H2).
Defined.

(** Reversing the results of two planes: the same totals for vectors
    of integers, the same exception for the vectors [do_plane]
    returns. *)
Example reduce_reversed_integers :
  reduce ([0; 0; 0], [0; 0; 0])
    (Ok <$> [(I64 [0; 1; 3], I64 [0; 5; 9]); (I64 [0; 2; 2], I64 [0; 30; 70])])
  = Ok ([0; 3; 5], [0; 35; 79]).
Proof. reflexivity. Qed.

Example reduce_reversed_doubles :
  reduce ([0; 0; 0], [0; 0; 0])
    (Ok <$> [(I64 [0; 1; 3], F64 [0; 5; 9]); (I64 [0; 2; 2], F64 [0; 30; 70])])
  = Raise TypeError
  /\ reduce ([0; 0; 0], [0; 0; 0])
    (Ok <$> [(I64 [0; 2; 2], F64 [0; 30; 70]); (I64 [0; 1; 3], F64 [0; 5; 9])])
  = Raise TypeError.
Proof. split; reflexivity. Qed.

(** C2: on the scenario of the specification, with one worker, the
    first plane is processed and the accumulation of its sums raises
    [TypeError]; no totals are produced.  The pool branch ends the
    same way. *)
Theorem aggregate_scenario_raises :
  aggregate identity_warp (Args 7 (Some 1)) scenario_volume [scenario_plane]
    = ([0%nat], Raise TypeError)
  /\ aggregate identity_warp (Args 7 (Some 2)) scenario_volume
       [scenario_plane; second_plane]
    = ([0%nat; 1%nat], Raise TypeError).
Proof. split; reflexivity. Qed.

(** C3: on a row of samples 2^53, 1, 1 the sums come back as a vector
    of doubles holding 2^53, although the exact sum 2^53 + 2 fits both
    a double and a 64-bit integer; adding that vector into the [int64]
    totals raises [TypeError]. *)
Theorem sums_are_doubles :
  do_plane identity_warp bright_row 0 flat_volume = Ok (I64 [3], F64 [2 ^ 53])
  /\ zsum (pdata bright_row) = 2 ^ 53 + 2
  /\ Num.round53 (2 ^ 53 + 2) = 2 ^ 53 + 2
  /\ accumulate ([0], [0]) (I64 [3], F64 [2 ^ 53]) = Raise TypeError.
Proof. repeat split; vm_compute; reflexivity. Qed.

(** ** The report *)

Lemma round53_pos (v : Z) : 0 < v -> 0 < Num.round53 v.
Proof.
  intros Hv. unfold Num.round53.
  destruct (Z.leb_spec (Z.log2 (Z.abs v) - 52) 0) as [|Hk]; [done|].
  rewrite Z.abs_eq by lia. rewrite Z.abs_eq in Hk by lia.
  rewrite Z.sgn_pos by done.
  set (k := Z.log2 v - 52) in *.
  assert (Hq : 1 <= Z.shiftr v k).
  { rewrite Z.shiftr_div_pow2 by lia.
    pose proof (Z.log2_spec v Hv) as [Hlo _].
    assert (2 ^ k <= 2 ^ Z.log2 v) by (apply Z.pow_le_mono_r; lia).
    apply Z.div_le_lower_bound; lia. }
  rewrite Z.shiftl_mul_pow2 by lia.
  assert (0 < 2 ^ k) by (apply Z.pow_pos_nonneg; lia).
  destruct (_ || _); nia.
Qed.

Lemma fdiv_finite (a b : Z) : b <> 0 -> exists m e, Fmt.fdiv a b = Fmt.Finite m e.
Proof.
  intros Hb. unfold Fmt.fdiv.
  destruct (Z.eqb_spec b 0); [done|].
  destruct (a =? 0); [by eexists _, _|].
  destruct (Fmt.scaled _ _ _) as [n0 d0].
  destruct (Fmt.scaled _ _ _) as [n1 d1].
  by eexists _, _.
Qed.

Lemma where_positive_spec (total_counts : list Z) (i : nat) :
  i ∈ where_positive total_counts
  <-> exists c, total_counts !! i = Some c /\ 0 < c.
Proof.
  unfold where_positive. rewrite list_elem_of_filter, elem_of_seq. split.
  - intros [Hc Hi]. destruct (total_counts !! i) as [c|] eqn:E; simpl in Hc; [|lia].
    by exists c.
  - intros (c & E & Hc). rewrite E. simpl. split; [done|].
    apply lookup_lt_Some in E. lia.
Qed.

Lemma take_ids_spec (a : list Z) (ids : list nat) :
  Forall (fun i => (i < length a)%nat) ids ->
  take_ids a ids = Ok ((fun i => default 0 (a !! i)) <$> ids).
Proof.
  induction 1 as [|i ids Hi _ IH]; [done|].
  cbn [take_ids fmap list_fmap].
  destruct (lookup_lt_is_Some_2 a i Hi) as [v ->].
  change (list_fmap nat Z (fun i => default 0 (a !! i)) ids)
    with ((fun i => default 0 (a !! i)) <$> ids).
  rewrite IH. reflexivity.
Qed.

(** The surviving rows, one id at a time. *)
Lemma surviving_rows (total_counts total_sums : list Z) :
  length total_counts = length total_sums ->
  surviving total_counts total_sums
  = Ok ((fun i => (Z.of_nat i, default 0 (total_counts !! i),
                   default 0 (total_sums !! i),
                   Fmt.fdiv (Num.round53 (default 0 (total_sums !! i)))
                            (Num.round53 (default 0 (total_counts !! i)))))
          <$> where_positive total_counts).
Proof.
  intros Hlen. unfold surviving.
  assert (Hids : Forall (fun i => (i < length total_counts)%nat)
                   (where_positive total_counts)).
  { apply Forall_forall. intros i Hi.
    apply where_positive_spec in Hi as (c & E & _).
    by apply lookup_lt_Some in E. }
  rewrite (take_ids_spec _ _ Hids). cbn [mbind result_bind].
  rewrite take_ids_spec by (by rewrite <- Hlen). cbn [mbind result_bind].
  f_equal. clear Hids.
  induction (where_positive total_counts) as [|i l IH]; [done|].
  cbn [fmap list_fmap zip_with]. f_equal. exact IH.
Qed.

Section ReportFacts.

Variable name_per_id : gmap Z string.
Variable get_level_name : Z -> Z -> string.

Lemma tuples_insert (d : gmap string pyseq) (name : string) (c s : Z) :
  tuples d -> tuples (<[name := PyTuple [c; s]]> d).
Proof.
  intros Hd k v. rewrite lookup_insert. case_decide.
  - intros [= <-]. by eexists _, _.
  - apply Hd.
Qed.

(** A second id under a name already in the dictionary ends the loop:
    the stored pair cannot be updated. *)
Lemma group_loop_hit (lvl : Z) (d : gmap string pyseq) (seg_id c s : Z)
    (rest : list (Z * Z * Z)) :
  tuples d -> is_Some (d !! get_level_name seg_id lvl) ->
  group_loop get_level_name lvl d ((seg_id, c, s) :: rest) = Raise TypeError.
Proof.
  intros Hd [v Hv]. cbn [group_loop]. rewrite Hv.
  destruct (Hd _ _ Hv) as (c0 & s0 & ->). reflexivity.
Qed.

Lemma group_loop_ok (lvl : Z) (rows : list (Z * Z * Z)) (d d' : gmap string pyseq) :
  tuples d -> group_loop get_level_name lvl d rows = Ok d' ->
  (forall name v, d' !! name = Some v <->
     d !! name = Some v
     \/ exists seg_id c s, (seg_id, c, s) ∈ rows
          /\ name = get_level_name seg_id lvl /\ v = PyTuple [c; s])
  /\ NoDup ((fun r => get_level_name r.1.1 lvl) <$> rows)
  /\ (forall r, r ∈ rows -> d !! get_level_name r.1.1 lvl = None).
Proof.
  revert d. induction rows as [|[[seg_id c] s] rest IH]; intros d Hd Hrun.
  - injection Hrun as <-. split; [|split].
    + intros name v. split; [by left|]. intros [?|(? & ? & ? & Hin & _)]; [done|].
      by apply elem_of_nil in Hin.
    + constructor.
    + intros r Hin. by apply elem_of_nil in Hin.
  - destruct (d !! get_level_name seg_id lvl) as [v0|] eqn:E.
    { rewrite group_loop_hit in Hrun by (by eauto). done. }
    cbn [group_loop] in Hrun. rewrite E in Hrun. cbn [mbind result_bind] in Hrun.
    apply IH in Hrun as (Hd' & Hnd & Hfresh); [|by apply tuples_insert].
    assert (Hother : forall r, r ∈ rest ->
              get_level_name r.1.1 lvl <> get_level_name seg_id lvl
              /\ d !! get_level_name r.1.1 lvl = None).
    { intros r Hr. specialize (Hfresh r Hr).
      rewrite lookup_insert in Hfresh. case_decide; [done|]. by split. }
    split; [|split].
    + intros name v. rewrite Hd', lookup_insert. case_decide as Hn.
      * subst name. split.
        -- intros [[= <-]|(i & c' & s' & Hin & Hname & _)].
           ++ right. exists seg_id, c, s. split; [by left|done].
           ++ destruct (Hother _ Hin) as [Hne _]. by simpl in Hne.
        -- intros [?|(i & c' & s' & Hin & Hname & ->)]; [congruence|].
           apply elem_of_cons in Hin as [[= -> -> ->]|Hin]; [by left|].
           destruct (Hother _ Hin) as [Hne _]. by simpl in Hne.
      * split.
        -- intros [?|(i & c' & s' & Hin & ? & ?)]; [by left|].
           right. exists i, c', s'. split; [by right|done].
        -- intros [?|(i & c' & s' & Hin & Hname & ->)]; [by left|].
           apply elem_of_cons in Hin as [[= -> -> ->]|Hin]; [done|].
           right. by exists i, c', s'.
    + cbn [fmap list_fmap]. constructor; [|done].
      cbn [fst]. intros Hin. apply list_elem_of_fmap in Hin as (r & Hname & Hr).
      destruct (Hother _ Hr) as [Hne _]. congruence.
    + intros r Hr. apply elem_of_cons in Hr as [->|Hr]; [done|].
      by destruct (Hother _ Hr).
Qed.

Lemma group_loop_raises (lvl : Z) (rows : list (Z * Z * Z)) (d : gmap string pyseq)
    (e : exn) :
  tuples d -> group_loop get_level_name lvl d rows = Raise e -> e = TypeError.
Proof.
  revert d. induction rows as [|[[seg_id c] s] rest IH]; intros d Hd Hrun; [done|].
  destruct (d !! get_level_name seg_id lvl) as [v0|] eqn:E.
  - rewrite group_loop_hit in Hrun by (by eauto). congruence.
  - cbn [group_loop] in Hrun. rewrite E in Hrun. cbn [mbind result_bind] in Hrun.
    eapply IH; [|done]. by apply tuples_insert.
Qed.

(** Grouping fails as soon as two surviving ids share a name. *)
Lemma group_loop_shared_name (lvl : Z) (rows : list (Z * Z * Z)) :
  ~ NoDup ((fun r => get_level_name r.1.1 lvl) <$> rows) ->
  group_loop get_level_name lvl ∅ rows = Raise TypeError.
Proof.
  intros Hdup.
  assert (Hd : tuples ∅) by (intros k v; by rewrite lookup_empty).
  destruct (group_loop get_level_name lvl ∅ rows) as [d|e] eqn:E.
  - apply group_loop_ok in E as (_ & Hnd & _); done.
  - f_equal. by eapply group_loop_raises.
Qed.

(** When no two rows share a name the loop returns a dictionary. *)
Lemma group_loop_distinct (lvl : Z) (rows : list (Z * Z * Z)) (d : gmap string pyseq) :
  NoDup ((fun r => get_level_name r.1.1 lvl) <$> rows) ->
  (forall r, r ∈ rows -> d !! get_level_name r.1.1 lvl = None) ->
  exists d', group_loop get_level_name lvl d rows = Ok d'.
Proof.
  revert d. induction rows as [|[[seg_id c] s] rest IH]; intros d Hnd Hfresh.
  - by exists d.
  - pose proof (Hfresh (seg_id, c, s) ltac:(by left)) as E. cbn [fst] in E.
    cbn [group_loop]. rewrite E. cbn [mbind result_bind]. apply NoDup_cons in Hnd as [Hnotin Hnd].
    apply IH; [done|]. intros r Hr. rewrite lookup_insert_ne.
    + apply Hfresh. by right.
    + intros Hname. apply Hnotin. apply list_elem_of_fmap. by exists r.
Qed.

(** Whatever is written begins with the header of its path. *)
Lemma report_header (lvl : Z) (total_counts total_sums : list Z) (out : string) :
  report name_per_id get_level_name lvl total_counts total_sums = Ok out ->
  exists body, out = (if lvl =? 7 then header7 else header_coarse) +:+ body.
Proof.
  unfold report. intros H. apply bind_Ok in H as (rows & _ & H).
  destruct (lvl =? 7).
  - injection H as <-. by eexists.
  - apply bind_Ok in H as (d & _ & H). apply bind_Ok in H as (body & _ & H).
    injection H as <-. by eexists.
Qed.

End ReportFacts.

(** The text written at level 7 for totals with an unhit label. *)
Example report_level7 :
  report cortex_names cortex_level 7 [3; 2; 0; 1] [10; -70; 0; 1]
  = Ok (header7
        +:+ "0," +:+ Fmt.quoted "not in any region" +:+ ",3, 10, 3.33" +:+ Fmt.nl
        +:+ "1," +:+ Fmt.quoted "id1" +:+ ",2, -70, -35.00" +:+ Fmt.nl
        +:+ "3," +:+ Fmt.quoted "id3" +:+ ",1, 1, 1.00" +:+ Fmt.nl).
Proof. vm_compute. reflexivity. Qed.

(** C4: the ids 10 and 11 both roll up to CortexA at level 1 and both
    were hit; the grouping loop raises [TypeError] on the second one
    and no row is written.  With id 10 alone the row of CortexA is
    written. *)
Theorem coarse_rollup_shared_ancestor_raises :
  report cortex_names cortex_level 1 cortex_counts cortex_sums = Raise TypeError
  /\ report cortex_names cortex_level 1 [0; 0; 0; 0; 0; 0; 0; 0; 0; 0; 3]
                                        [0; 0; 0; 0; 0; 0; 0; 0; 0; 0; 30]
     = Ok (header_coarse +:+ Fmt.quoted "CortexA" +:+ ",3,30,10.00" +:+ Fmt.nl).
Proof. split; vm_compute; reflexivity. Qed.

(** C7: at level 1 the file begins with a header that has a space
    before the third field, which the header of the specification
    does not have; the level 7 header is the one of the
    specification. *)
Theorem coarse_header_differs :
  report cortex_names cortex_level 1 [0; 4] [0; 100]
    = Ok (header_coarse +:+ Fmt.quoted "root" +:+ ",4,100,25.00" +:+ Fmt.nl)
  /\ String.eqb header_coarse spec_header_coarse = false
  /\ String.length header_coarse = S (String.length spec_header_coarse)
  /\ String.get 16 header_coarse = Some " "%char.
Proof. repeat split; vm_compute; reflexivity. Qed.

Lemma nonpositive_workers_rejected_witness :
  (n_cores (Args 7 (Some 0)) = Some 0 /\ 0 <= 0)
  /\ (main identity_warp cortex_names cortex_level (Args 7 (Some 0))
        scenario_volume [scenario_plane]).1 = []
  /\ (exists e, (main identity_warp cortex_names cortex_level (Args 7 (Some 0))
                   scenario_volume [scenario_plane]).2 = Raise e)
  /\ ([scenario_plane] <> [] -> vdata scenario_volume <> [] ->
      (main identity_warp cortex_names cortex_level (Args 7 (Some 0))
         scenario_volume [scenario_plane]).2 = Raise ValueError).
Proof.
  split; [split; [reflexivity|lia]|].
  apply (nonpositive_workers_rejected identity_warp cortex_names cortex_level
           (Args 7 (Some 0)) scenario_volume [scenario_plane] 0);
    [reflexivity|lia].
Defined.

(** * Further properties of the plane processor *)

Lemma zsum_cons (a : Z) (l : list Z) : zsum (a :: l) = a + zsum l.
Proof. reflexivity. Qed.

Lemma zsum_fmap_add {A : Type} (f g : A -> Z) (l : list A) :
  zsum ((fun a => f a + g a) <$> l) = zsum (f <$> l) + zsum (g <$> l).
Proof.
  induction l as [|a l IH]; [done|].
  rewrite !fmap_cons, !zsum_cons, IH. lia.
Qed.

Lemma zsum_indicator (s n k : nat) (c : Z) :
  zsum ((fun l => if decide (k = l) then c else 0) <$> seq s n)
  = if decide (s <= k < s + n)%nat then c else 0.
Proof.
  revert s. induction n as [|n IH]; intros s.
  - cbn [seq]. rewrite fmap_nil. case_decide; [lia|done].
  - cbn [seq]. rewrite fmap_cons, zsum_cons, IH. repeat case_decide; lia.
Qed.

(** Splitting a weighted list by label and summing label by label
    gives the sum of the whole list. *)
Lemma zsum_by_label {A : Type} (lab : A -> nat) (wt : A -> Z) (V : list A) (n : nat) :
  Forall (fun p => (lab p < n)%nat) V ->
  zsum ((fun l => zsum (wt <$> filter (fun p => lab p = l) V)) <$> seq 0 n)
  = zsum (wt <$> V).
Proof.
  induction 1 as [|p V Hp _ IH].
  - induction (seq 0 n) as [|l L IHL]; [done|].
    rewrite fmap_cons, zsum_cons, IHL. reflexivity.
  - rewrite fmap_cons, zsum_cons, <- IH.
    rewrite (list_fmap_ext _
               (fun l => (if decide (lab p = l) then wt p else 0)
                         + zsum (wt <$> filter (fun p => lab p = l) V))).
    + rewrite zsum_fmap_add, zsum_indicator. rewrite decide_True; [done|lia].
    + intros _ l _. rewrite filter_cons. case_decide; [|lia].
      by rewrite fmap_cons, zsum_cons.
Qed.

Lemma zsum_ones {A : Type} (l : list A) :
  zsum ((fun _ => 1) <$> l) = Z.of_nat (length l).
Proof.
  induction l as [|a l IH]; [done|].
  rewrite fmap_cons, zsum_cons, IH. cbn [length]. lia.
Qed.

Lemma zsum_abs_filter {A : Type} (P : A -> Prop) `{forall a, Decision (P a)}
    (wt : A -> Z) (l : list A) :
  zsum (Z.abs <$> (wt <$> filter P l)) <= zsum (Z.abs <$> (wt <$> l)).
Proof.
  induction l as [|a l IH]; [done|].
  rewrite filter_cons. case_decide.
  - rewrite !fmap_cons, !zsum_cons. lia.
  - rewrite !fmap_cons, !zsum_cons. lia.
Qed.

Lemma bincount_values {A : Type} (g : A -> Z) (V : list A) (n : Z) :
  Z.of_nat (length V) < 2 ^ 63 ->
  values (Np.bincount (g <$> V) n)
  = (fun l => Z.of_nat (length (filter (fun p => Z.to_nat (g p) = l) V)))
      <$> seq 0 (Np.bincount_size (g <$> V) n).
Proof.
  intros Hlen. apply list_eq. intros i.
  rewrite bincount_lookup, list_lookup_fmap.
  destruct (decide (i < Np.bincount_size (g <$> V) n)%nat) as [Hi|Hi].
  - rewrite lookup_replicate_2, lookup_seq_lt by done. simpl. f_equal.
    apply fold_incr_exact.
    pose proof (length_filter (fun p => Z.to_nat (g p) = i) V). lia.
  - rewrite lookup_seq_ge by lia.
    destruct (replicate _ _ !! i) eqn:E; [|done].
    apply lookup_replicate in E. lia.
Qed.

Lemma bincount_weights_values {A : Type} (g : A * Z -> Z) (V : list (A * Z)) (n : Z) :
  zsum (Z.abs <$> V.*2) <= 2 ^ 53 ->
  values (Np.bincount_weights (g <$> V) (Num.to_int64 <$> V.*2) n)
  = (fun l => zsum (filter (fun p => Z.to_nat (g p) = l) V).*2)
      <$> seq 0 (Np.bincount_size (g <$> V) n).
Proof.
  intros Hb. apply list_eq. intros i.
  rewrite bincount_weights_lookup, list_lookup_fmap.
  destruct (decide (i < Np.bincount_size (g <$> V) n)%nat) as [Hi|Hi].
  - rewrite lookup_replicate_2, lookup_seq_lt by done. simpl. f_equal.
    pose proof (zsum_abs_filter (fun p => Z.to_nat (g p) = i) snd V).
    rewrite fold_weights_exact; simpl; lia.
  - rewrite lookup_seq_ge by lia.
    destruct (replicate _ _ !! i) eqn:E; [|done].
    apply lookup_replicate in E. lia.
Qed.

Lemma grid_lookup {A : Type} (f : nat -> nat -> A) (s h w y x : nat) :
  (y < h)%nat -> (x < w)%nat ->
  (y' ← seq s h; f y' <$> seq 0 w) !! (y * w + x)%nat = Some (f (s + y)%nat x).
Proof.
  revert s y. induction h as [|h IH]; intros s y Hy Hx; [lia|].
  cbn [seq]. rewrite bind_cons. destruct y as [|y].
  - rewrite lookup_app_l by (rewrite length_fmap, length_seq; lia).
    rewrite list_lookup_fmap, lookup_seq_lt by lia. simpl.
    by rewrite Nat.add_0_r.
  - rewrite lookup_app_r by (rewrite length_fmap, length_seq; lia).
    rewrite length_fmap, length_seq.
    replace (S y * w + x - w)%nat with (y * w + x)%nat by lia.
    rewrite IH by lia. do 2 f_equal. lia.
Qed.

Section PlaneMore.

Variable warp_round : Z -> nat -> nat -> Z * Z * Z -> Z * Z * Z.

(** The pixel at row [y] and column [x] of a plane is warped from the
    coordinate [(z, y, x)] and carries the sample stored at
    [y * width + x]: the flattened grid and the flattened plane are
    walked in the same order. *)
Theorem pixels_row_major (pl : plane) (z : Z) (y x : nat) :
  plane_wf pl -> (y < height pl)%nat -> (x < width pl)%nat ->
  exists v,
    pdata pl !! (y * width pl + x)%nat = Some v
    /\ pixels warp_round pl z !! (y * width pl + x)%nat
       = Some (warp_round z (height pl) (width pl) (z, Z.of_nat y, Z.of_nat x), v).
Proof.
  intros Hwf Hy Hx.
  assert (Hi : (y * width pl + x < length (pdata pl))%nat).
  { rewrite Hwf. nia. }
  destruct (lookup_lt_is_Some_2 _ _ Hi) as [v Hv].
  exists v. split; [done|].
  unfold pixels. apply lookup_zip_with_Some.
  eexists _, _. split; [done|]. split; [|done].
  rewrite list_lookup_fmap. unfold Np.mgrid.
  rewrite (grid_lookup (fun y x => (z, Z.of_nat y, Z.of_nat x)) 0) by done.
  reflexivity.
Qed.

(** [do_plane] fails on an empty label volume with [ValueError] and
    on nothing else: every plane gets a result over a volume that has
    a label. *)
Theorem do_plane_outcome (pl : plane) (z : Z) (m : volume) :
  plane_wf pl ->
  (vdata m = [] -> do_plane warp_round pl z m = Raise ValueError)
  /\ (vdata m <> [] -> exists cs, do_plane warp_round pl z m = Ok cs).
Proof.
  intros Hwf. split.
  - intros E. unfold do_plane. by rewrite E.
  - intros Hne. destruct (vdata m) as [|v l] eqn:E; [done|].
    eexists. apply do_plane_masked; [done|]. rewrite E. reflexivity.
Qed.

(** Degenerate geometry: when every pixel of the plane is warped
    outside the volume, [do_plane] raises nothing and returns two
    all-zero vectors of integers of length (maximum label) + 1. *)
Theorem do_plane_all_outside (pl : plane) (z : Z) (m : volume) (top : Z) :
  plane_wf pl -> is_max top (vdata m) ->
  (forall p, p ∈ pixels warp_round pl z -> ~ inside m p.1) ->
  do_plane warp_round pl z m
  = Ok (I64 (replicate (Z.to_nat (top + 1)) 0),
        I64 (replicate (Z.to_nat (top + 1)) 0)).
Proof.
  intros Hwf Hmax Hout.
  rewrite (do_plane_masked warp_round pl z m top Hwf (np_max_is_max _ _ Hmax)).
  assert (E : masked warp_round m pl z = []).
  { destruct (masked warp_round m pl z) as [|p V] eqn:E; [done|].
    assert (Hp : p ∈ masked warp_round m pl z) by (rewrite E; by left).
    unfold masked in Hp. apply list_elem_of_filter in Hp as [Hin Hp].
    apply in_bounds_inside in Hin. destruct (Hout p Hp Hin). }
  rewrite E. reflexivity.
Qed.

(** The mask keeps the reads inside the array: for a volume whose
    data fill its shape, an in-bounds coordinate is read from a cell
    of the array, never from beyond its end. *)
Theorem masked_read_in_range (m : volume) (c : Z * Z * Z) :
  Z.of_nat (length (vdata m)) = nz m * ny m * nx m ->
  in_bounds m c = true ->
  exists v, vdata m !! Z.to_nat ((c.1.1 * ny m + c.1.2) * nx m + c.2) = Some v
            /\ vol_get m c = v.
Proof.
  intros Hlen Hin. destruct c as [[z y] x]. unfold in_bounds in Hin.
  repeat (apply andb_prop in Hin as [Hin ?]).
  rewrite ?Z.leb_le, ?Z.ltb_lt in *.
  assert (Hzy : 0 <= z * ny m + y < nz m * ny m) by nia.
  assert (Hzyx : 0 <= (z * ny m + y) * nx m + x < nz m * ny m * nx m) by nia.
  assert (Hi : (Z.to_nat ((z * ny m + y) * nx m + x) < length (vdata m))%nat) by lia.
  destruct (lookup_lt_is_Some_2 _ _ Hi) as [v Hv].
  exists v. cbn [fst snd]. split; [done|]. unfold vol_get. by rewrite Hv.
Qed.

(** No pixel is counted twice and no pixel inside the volume is
    dropped: the counts of a plane add up to the number of pixels that
    land inside the volume, and, while the magnitudes of their samples
    add up to at most 2^53, the sums add up to the total of their
    samples. *)
Theorem do_plane_conserves (pl : plane) (z : Z) (m : volume) (top : Z) :
  plane_wf pl -> uint16_volume m -> is_max top (vdata m) ->
  Z.of_nat (height pl * width pl) < 2 ^ 63 ->
  exists counts sums,
    do_plane warp_round pl z m = Ok (I64 counts, sums)
    /\ zsum counts = Z.of_nat (length (kept warp_round m pl z))
    /\ (zsum (Z.abs <$> (kept warp_round m pl z).*2) <= 2 ^ 53 ->
        zsum (values sums) = zsum (kept warp_round m pl z).*2).
Proof.
  intros Hwf Hm [Hin Hle] Hsize.
  assert (Htop : 0 <= top).
  { unfold uint16_volume in Hm. rewrite Forall_forall in Hm.
    specialize (Hm top Hin). lia. }
  rewrite <- masked_kept.
  set (V := masked warp_round m pl z).
  set (g := fun p : Z * Z * Z * Z => vol_get m p.1).
  assert (Eseg : vol_get m <$> V.*1 = g <$> V) by (by rewrite <- list_fmap_compose).
  assert (Hsz : Np.bincount_size (g <$> V) (top + 1) = Z.to_nat (top + 1)).
  { apply bincount_size_bounded; [done|].
    apply Forall_fmap, Forall_forall. intros p _. by apply vol_get_le. }
  assert (Hlab : Forall (fun p => (Z.to_nat (g p) < Z.to_nat (top + 1))%nat) V).
  { apply Forall_forall. intros p _. unfold g.
    pose proof (vol_get_le m p.1 top Htop Hle).
    pose proof (vol_get_nonneg m p.1 Hm). lia. }
  assert (HV : Z.of_nat (length V) < 2 ^ 63).
  { unfold V, masked.
    pose proof (length_filter (fun p => in_bounds m p.1 = true)
                  (pixels warp_round pl z)).
    assert (length (pixels warp_round pl z) <= height pl * width pl)%nat.
    { unfold pixels. rewrite length_zip_with, length_fmap, mgrid_length. lia. }
    lia. }
  eexists (values (Np.bincount (g <$> V) (top + 1))),
          (Np.bincount_weights (g <$> V) (Num.to_int64 <$> V.*2) (top + 1)).
  split; [|split].
  - rewrite (do_plane_masked warp_round pl z m top Hwf
               (np_max_is_max _ _ (conj Hin Hle))).
    fold V. by rewrite Eseg.
  - rewrite bincount_values, Hsz by done.
    rewrite <- zsum_ones.
    rewrite <- (zsum_by_label (fun p => Z.to_nat (g p)) (fun _ => 1) V
                  (Z.to_nat (top + 1)) Hlab).
    f_equal. apply list_fmap_ext. intros _ l _. by rewrite zsum_ones.
  - intros Hb. rewrite bincount_weights_values, Hsz by done.
    apply (zsum_by_label (fun p => Z.to_nat (g p)) snd V (Z.to_nat (top + 1)) Hlab).
Qed.

End PlaneMore.

(** * Further properties of the driver *)

(** Loading leaves a volume of 16-bit labels as it is. *)
Theorem astype_uint16_fixes_labels (raw : volume) :
  uint16_volume raw -> astype_uint16 raw = raw.
Proof.
  intros Hr. destruct raw as [z y x data]. unfold astype_uint16. cbn [nz ny nx vdata].
  f_equal. unfold uint16_volume in Hr. cbn [vdata] in Hr.
  induction Hr as [|v l Hv _ IH]; [done|].
  rewrite fmap_cons, IH. f_equal. unfold Num.to_uint16. apply Z.mod_small. lia.
Qed.

Lemma zip_with_add64_wrapped (A y : list Z) :
  zip_with Num.add64 (Num.to_int64 <$> A) y = Num.to_int64 <$> zip_with Z.add A y.
Proof.
  revert y. induction A as [|a A IH]; intros [|v y]; try done.
  cbn [fmap list_fmap zip_with]. f_equal; [apply to_int64_add|apply IH].
Qed.

Lemma fold_zip_add_lookup (ys : list (list Z)) (A : list Z) (i : nat) (a : Z) :
  Forall (fun y => length y = length A) ys -> A !! i = Some a ->
  fold_left (zip_with Z.add) ys A !! i
  = Some (a + zsum ((fun y => default 0 (y !! i)) <$> ys)).
Proof.
  revert A a. induction ys as [|y ys IH]; intros A a Hys Ha.
  - cbn [fold_left]. rewrite Ha, fmap_nil. f_equal. unfold zsum. simpl. lia.
  - apply Forall_cons in Hys as [Hy Hys]. cbn [fold_left].
    assert (Hi : (i < length y)%nat) by (rewrite Hy; by eapply lookup_lt_Some).
    destruct (lookup_lt_is_Some_2 _ _ Hi) as [v Hv].
    rewrite (IH _ (a + v)).
    + rewrite fmap_cons, zsum_cons, Hv. simpl. f_equal. lia.
    + eapply Forall_impl; [done|]. intros y' Hy'. cbn beta in *.
      rewrite length_zip_with, Hy, Nat.min_id. done.
    + apply lookup_zip_with_Some. by eexists _, _.
Qed.

Lemma reduce_integers (rs : list (list Z * list Z)) (A B : list Z) :
  Forall (fun r => length r.1 = length A /\ length r.2 = length B) rs ->
  reduce (Num.to_int64 <$> A, Num.to_int64 <$> B)
         ((fun r => Ok (I64 r.1, I64 r.2)) <$> rs)
  = Ok (Num.to_int64 <$> fold_left (zip_with Z.add) rs.*1 A,
        Num.to_int64 <$> fold_left (zip_with Z.add) rs.*2 B).
Proof.
  revert A B. induction rs as [|[c s] rs IH]; intros A B Hrs; [done|].
  apply Forall_cons in Hrs as [[Hc Hs] Hrs]. cbn [fst snd] in Hc, Hs.
  cbn [fmap list_fmap reduce mbind result_bind fst snd].
  unfold accumulate. cbn [fst snd iadd_int64].
  rewrite !length_fmap, Hc, Hs, !Nat.eqb_refl.
  cbn [mbind result_bind]. rewrite !zip_with_add64_wrapped.
  apply IH. eapply Forall_impl; [done|]. intros r [H1 H2].
  by rewrite !length_zip_with, Hc, Hs, !Nat.min_id.
Qed.

(** The reduce loop on vectors of integers: starting from zeros, each
    entry of the totals is the sum of that entry over all plane
    results, wrapped to 64 bits. *)
Theorem reduce_sums_columns (n : Z) (rs : list (list Z * list Z)) :
  Forall (fun r => length r.1 = Z.to_nat n /\ length r.2 = Z.to_nat n) rs ->
  exists total_counts total_sums,
    reduce (Np.zeros n, Np.zeros n) ((fun r => Ok (I64 r.1, I64 r.2)) <$> rs)
      = Ok (total_counts, total_sums)
    /\ forall i, (i < Z.to_nat n)%nat ->
         total_counts !! i
           = Some (Num.to_int64 (zsum ((fun r => default 0 (r.1 !! i)) <$> rs)))
         /\ total_sums !! i
           = Some (Num.to_int64 (zsum ((fun r => default 0 (r.2 !! i)) <$> rs))).
Proof.
  intros Hrs.
  assert (Ez : Np.zeros n = Num.to_int64 <$> Np.zeros n).
  { unfold Np.zeros. by rewrite fmap_replicate. }
  assert (Hlen : length (Np.zeros n) = Z.to_nat n) by apply length_replicate.
  eexists _, _. split.
  - rewrite Ez at 1 2. apply reduce_integers.
    eapply Forall_impl; [done|]. intros r [H1 H2]. by rewrite Hlen.
  - intros i Hi.
    assert (Hz : Np.zeros n !! i = Some 0) by (by apply lookup_replicate_2).
    rewrite !list_lookup_fmap.
    rewrite (fold_zip_add_lookup rs.*1 _ i 0), (fold_zip_add_lookup rs.*2 _ i 0);
      try done.
    + rewrite <- !list_fmap_compose. by split.
    + apply Forall_fmap. eapply Forall_impl; [done|]. intros r [_ H2].
      simpl. by rewrite Hlen.
    + apply Forall_fmap. eapply Forall_impl; [done|]. intros r [H1 _].
      simpl. by rewrite Hlen.
Qed.

(** A plane task that failed is never swallowed: the reduce loop ends
    in an exception and hands back no totals. *)
Theorem reduce_failed_task (totals : list Z * list Z)
    (futures : list (result (ndarray * ndarray))) (e : exn) :
  Raise e ∈ futures -> exists e', reduce totals futures = Raise e'.
Proof.
  revert totals. induction futures as [|f futures IH]; intros totals Hin.
  - by apply elem_of_nil in Hin.
  - cbn [reduce]. destruct f as [cs|e0]; [|by eexists].
    cbn [mbind result_bind].
    destruct (accumulate totals cs) as [totals'|e1]; [|by eexists].
    cbn [mbind result_bind]. apply IH.
    apply elem_of_cons in Hin as [?|?]; done.
Qed.

Lemma fold_left_max_elem (l : list Z) (v : Z) :
  fold_left Z.max l v = v \/ fold_left Z.max l v ∈ l.
Proof.
  revert v. induction l as [|y l IH]; intros v; [by left|].
  cbn [fold_left]. destruct (IH (Z.max v y)) as [E|Hin].
  - rewrite E. destruct (Z.max_spec v y) as [[_ ->]|[_ ->]]; [right; by left|by left].
  - right. by right.
Qed.

Lemma np_max_Ok (l : list Z) (top : Z) : Np.max l = Ok top -> is_max top l.
Proof.
  destruct l as [|v l]; [done|]. intros [= <-]. split.
  - destruct (fold_left_max_elem l v) as [->|Hin]; [by left|by right].
  - apply Forall_cons. split; [apply fold_left_max_init|].
    apply Forall_forall. intros x Hx. by apply fold_left_max_ge.
Qed.

Lemma enumerate_fst {A : Type} (l : list A) : (enumerate l).*1 = seq 0 (length l).
Proof. unfold enumerate. apply fst_zip. by rewrite length_seq. Qed.

Section DriverMore.

Variable warp_round : Z -> nat -> nat -> Z * Z * Z -> Z * Z * Z.
Variable name_per_id : gmap Z string.
Variable get_level_name : Z -> Z -> string.

(** Over a loaded volume, a well-formed plane with a pixel inside the
    volume gets a result, and the accumulation of that result into
    fresh totals adds its counts and is refused on its sums. *)
Lemma first_accumulate (raw : volume) (top : Z) (pl : plane) (z : Z) :
  Np.max (vdata (astype_uint16 raw)) = Ok top -> plane_wf pl ->
  (exists p, p ∈ pixels warp_round pl z /\ inside raw p.1) ->
  exists cs, do_plane warp_round pl z (astype_uint16 raw) = Ok cs
    /\ accumulate (Np.zeros (top + 1), Np.zeros (top + 1)) cs = Raise TypeError.
Proof.
  intros Hmax Hwf (p & Hp & Hin). eexists. split; [by apply do_plane_masked|].
  unfold accumulate. cbn [fst snd].
  assert (Hm : is_max top (vdata (astype_uint16 raw))) by (by apply np_max_Ok).
  pose proof (astype_uint16_range raw) as Hu.
  assert (Htop : 0 <= top).
  { destruct Hm as [Hin' _]. unfold uint16_volume in Hu.
    rewrite Forall_forall in Hu. specialize (Hu top Hin'). lia. }
  assert (Hsel : p ∈ masked warp_round (astype_uint16 raw) pl z).
  { unfold masked. apply list_elem_of_filter. split; [|done].
    by apply in_bounds_inside. }
  rewrite (iadd_int64_shaped _ (Np.bincount _ _)).
  - destruct (masked warp_round (astype_uint16 raw) pl z) as [|q V];
      [by apply elem_of_nil in Hsel|]. reflexivity.
  - rewrite bincount_length. unfold Np.zeros. rewrite length_replicate.
    apply bincount_size_bounded; [done|].
    apply Forall_fmap, Forall_forall. intros c _. apply vol_get_le; [done|].
    by destruct Hm.
Qed.

Lemma np_max_loaded (raw : volume) :
  vdata raw <> [] -> exists top, Np.max (vdata (astype_uint16 raw)) = Ok top.
Proof.
  intros Hv. unfold astype_uint16. cbn [vdata].
  destruct (vdata raw); [done|]. by eexists.
Qed.

(** With one worker the planes are taken in turn on the calling
    thread and the loop stops at the first exception: when the first
    plane has a pixel inside the volume, it is processed, the
    accumulation of its sums raises, and no later plane is opened. *)
Theorem sequential_stops_at_first_failure (a : args) (raw : volume)
    (f : plane) (files : list plane) :
  n_cores a = Some 1 -> vdata raw <> [] -> plane_wf f ->
  (exists p, p ∈ pixels warp_round f 0 /\ inside raw p.1) ->
  aggregate warp_round a raw (f :: files) = ([0%nat], Raise TypeError).
Proof.
  intros Hn Hv Hwf Hin. unfold aggregate. rewrite (txn_loaded raw Hv).
  destruct (np_max_loaded raw Hv) as [top E]. rewrite E.
  rewrite decide_True by done.
  cbn [enumerate length seq zip zip_with run_sequential].
  destruct (first_accumulate raw top f (Z.of_nat 0) E Hwf Hin) as (cs & -> & Hacc).
  cbn [mbind result_bind]. by rewrite Hacc.
Qed.

(** Every run whose first plane is well formed and has a pixel inside
    a segmentation that is not empty, with a worker count the pool
    accepts, ends in [TypeError] at the first [total_sums += s]; no
    output is written. *)
Theorem main_raises_type_error (a : args) (raw : volume)
    (f : plane) (files : list plane) :
  Pool (n_cores a) = Ok () -> vdata raw <> [] -> plane_wf f ->
  (exists p, p ∈ pixels warp_round f 0 /\ inside raw p.1) ->
  (main warp_round name_per_id get_level_name a raw (f :: files)).2
  = Raise TypeError.
Proof.
  intros Hp Hv Hwf Hin. unfold main, aggregate. rewrite (txn_loaded raw Hv).
  destruct (np_max_loaded raw Hv) as [top E]. rewrite E.
  destruct (first_accumulate raw top f (Z.of_nat 0) E Hwf Hin) as (cs & Hcs & Hacc).
  case_decide.
  - cbn [enumerate length seq zip zip_with run_sequential].
    rewrite Hcs. cbn [mbind result_bind]. by rewrite Hacc.
  - unfold run_pool. rewrite Hp.
    cbn [enumerate length seq zip zip_with fmap list_fmap reduce fst snd].
    rewrite Hcs. cbn [mbind result_bind]. by rewrite Hacc.
Qed.

End DriverMore.

(** * Further properties of the report *)

#[global] Instance str_le_total : Total str_le.
Proof.
  intros s t. unfold str_le. destruct (String.leb_total s t); auto.
Qed.

Lemma StronglySorted_seq (s n : nat) : StronglySorted lt (seq s n).
Proof.
  revert s. induction n as [|n IH]; intros s; [constructor|].
  cbn [seq]. constructor; [apply IH|].
  apply Forall_forall. intros x Hx. apply elem_of_seq in Hx. lia.
Qed.

Lemma StronglySorted_filter {A : Type} (R : relation A) (P : A -> Prop)
    `{forall a, Decision (P a)} (l : list A) :
  StronglySorted R l -> StronglySorted R (filter P l).
Proof.
  induction 1 as [|a l Hl IH Ha]; [constructor|].
  rewrite filter_cons. case_decide; [|done].
  constructor; [done|]. apply Forall_forall. intros x Hx.
  apply list_elem_of_filter in Hx as [_ Hx].
  rewrite Forall_forall in Ha. by apply Ha.
Qed.

Lemma surviving_fst (total_counts total_sums : list Z) :
  length total_counts = length total_sums ->
  exists rows, surviving total_counts total_sums = Ok rows
    /\ rows.*1 = survivors total_counts total_sums.
Proof.
  intros Hlen. eexists. split; [by apply surviving_rows|].
  unfold survivors. rewrite <- list_fmap_compose. reflexivity.
Qed.

(** The surviving rows come in strictly increasing order of id, so
    the level 7 file lists every id once, smallest first. *)
Theorem surviving_ids_ascending (total_counts total_sums : list Z) :
  length total_counts = length total_sums ->
  exists rows, surviving total_counts total_sums = Ok rows
    /\ StronglySorted Z.lt ((fun r => r.1.1.1) <$> rows).
Proof.
  intros Hlen. eexists. split; [by apply surviving_rows|].
  rewrite <- list_fmap_compose.
  apply (StronglySorted_fmap _ lt Z.lt).
  - intros i j Hij. simpl. lia.
  - unfold where_positive. apply StronglySorted_filter, StronglySorted_seq.
Qed.

Section ReportMore.

Variable name_per_id : gmap Z string.
Variable get_level_name : Z -> Z -> string.

(** At a coarse level, two surviving ids with the same ancestor name
    end the report in [TypeError]; nothing is written. *)
Theorem report_coarse_shared_name (lvl : Z) (total_counts total_sums : list Z) :
  length total_counts = length total_sums -> (lvl =? 7) = false ->
  ~ NoDup ((fun r => get_level_name r.1.1 lvl) <$> survivors total_counts total_sums) ->
  report name_per_id get_level_name lvl total_counts total_sums = Raise TypeError.
Proof.
  intros Hlen Hl Hdup. unfold report.
  destruct (surviving_fst _ _ Hlen) as (rows & -> & Hrows).
  cbn [mbind result_bind]. rewrite Hl, Hrows.
  by rewrite group_loop_shared_name.
Qed.

Lemma rows_coarse_lines (d : gmap string pyseq) (groups : list (Z * Z * Z)) (lvl : Z) :
  (forall r, r ∈ groups ->
     d !! get_level_name r.1.1 lvl = Some (PyTuple [r.1.2; r.2])) ->
  rows_coarse d ((fun r => get_level_name r.1.1 lvl) <$> groups)
  = Ok (foldr (fun r out => coarse_line (get_level_name r.1.1 lvl) r.1.2 r.2 +:+ out)
              ""%string groups).
Proof.
  induction groups as [|r groups IH]; intros Hd; [done|].
  cbn [fmap list_fmap rows_coarse foldr]. unfold row_coarse at 1.
  rewrite (Hd r) by (by left). cbn [mbind result_bind getitem items_of lookup].
  change (list_fmap _ _ ?f groups) with (f <$> groups).
  rewrite IH by (intros r' Hr'; apply Hd; by right).
  reflexivity.
Qed.

(** At a coarse level, when the surviving ids have pairwise different
    ancestor names, the report is written: after the header comes one
    line per surviving id, with its name, count, sum and mean, the
    lines ordered by name. *)
Theorem report_coarse_distinct_names (lvl : Z) (total_counts total_sums : list Z) :
  length total_counts = length total_sums -> (lvl =? 7) = false ->
  NoDup ((fun r => get_level_name r.1.1 lvl) <$> survivors total_counts total_sums) ->
  exists groups,
    groups ≡ₚ survivors total_counts total_sums
    /\ Sorted str_le ((fun r => get_level_name r.1.1 lvl) <$> groups)
    /\ report name_per_id get_level_name lvl total_counts total_sums
       = Ok (header_coarse
             +:+ foldr (fun r out =>
                          coarse_line (get_level_name r.1.1 lvl) r.1.2 r.2 +:+ out)
                       ""%string groups).
Proof.
  intros Hlen Hl Hnd. unfold report.
  destruct (surviving_fst _ _ Hlen) as (rows & -> & Hrows).
  cbn [mbind result_bind]. rewrite Hl, Hrows.
  set (sv := survivors total_counts total_sums) in *.
  assert (He : tuples ∅) by (intros k v; by rewrite lookup_empty).
  destruct (group_loop_distinct get_level_name lvl sv ∅ Hnd) as [d Hd].
  { intros r _. apply lookup_empty. }
  rewrite Hd. cbn [mbind result_bind].
  apply group_loop_ok in Hd as (Hchar & _ & _); [|done].
  assert (Hkeys : (map_to_list d).*1 ≡ₚ (fun r => get_level_name r.1.1 lvl) <$> sv).
  { apply NoDup_Permutation; [apply NoDup_fst_map_to_list|done|].
    intros name. rewrite !list_elem_of_fmap. split.
    - intros ([k v] & -> & Hin). apply elem_of_map_to_list in Hin.
      apply Hchar in Hin as [Hin|(i & c & s & Hin & Hname & _)].
      + by rewrite lookup_empty in Hin.
      + exists (i, c, s). by split.
    - intros ([[i c] s] & -> & Hin).
      exists (get_level_name i lvl, PyTuple [c; s]). split; [done|].
      apply elem_of_map_to_list, Hchar. right. by exists i, c, s. }
  assert (Hsort : merge_sort str_le (map_to_list d).*1
                  ≡ₚ map (fun r => get_level_name r.1.1 lvl) sv).
  { etrans; [apply merge_sort_Permutation|exact Hkeys]. }
  apply Permutation_map_inv in Hsort as (groups & Hnames & Hperm).
  exists groups. split; [by symmetry|]. split.
  - change (Sorted str_le (map (fun r => get_level_name r.1.1 lvl) groups)).
    rewrite <- Hnames. apply Sorted_merge_sort, _.
  - rewrite Hnames.
    change (map ?f groups) with (f <$> groups).
    rewrite rows_coarse_lines; [done|].
    intros [[i c] s] Hr. apply Hchar. right. exists i, c, s.
    split; [|done]. by rewrite Hperm.
Qed.

End ReportMore.

(** ** The mean and its text *)

Lemma rne_exact (k den : Z) : 0 < den -> Fmt.rne (k * den) den = k.
Proof.
  intros Hd. unfold Fmt.rne. rewrite Z.div_mul, Z.mod_mul by lia.
  destruct (Z.ltb_spec den (2 * 0)); [lia|].
  destruct (Z.eqb_spec (2 * 0) den); [lia|]. reflexivity.
Qed.

Lemma scaled_rne_exact (k den e : Z) :
  0 < den -> e <= 0 ->
  (let '(n, d) := Fmt.scaled (k * den) den e in Fmt.rne n d) = k * 2 ^ (- e).
Proof.
  intros Hd He. unfold Fmt.scaled. destruct (Z.leb_spec 0 e).
  - assert (e = 0) by lia. subst e. change (2 ^ 0) with 1. change (2 ^ (- 0)) with 1.
    rewrite !Z.mul_1_r. by apply rne_exact.
  - replace (k * den * 2 ^ (- e)) with (k * 2 ^ (- e) * den) by lia.
    by apply rne_exact.
Qed.

Lemma fdiv_exponent_nonpos (k den : Z) :
  0 < k < 2 ^ 53 -> 0 < den ->
  (let '(n0, d0) := Fmt.scaled (k * den) den (Z.log2 (k * den) - Z.log2 den - 52) in
   if n0 / d0 <? 2 ^ 52 then Z.log2 (k * den) - Z.log2 den - 52 - 1
   else Z.log2 (k * den) - Z.log2 den - 52) <= 0.
Proof.
  intros Hk Hd.
  assert (Hlog : Z.log2 (k * den) <= Z.log2 k + Z.log2 den + 1)
    by (apply Z.log2_mul_above; lia).
  assert (Hk52 : Z.log2 k < 53) by (apply Z.log2_lt_pow2; lia).
  set (e0 := Z.log2 (k * den) - Z.log2 den - 52) in *.
  assert (He0 : e0 <= 1) by lia.
  unfold Fmt.scaled. destruct (Z.leb_spec 0 e0).
  - destruct (Z.ltb_spec (k * den / (den * 2 ^ e0)) (2 ^ 52)); [lia|].
    destruct (Z.eq_dec e0 1) as [E|]; [|lia]. exfalso.
    rewrite E in *. change (2 ^ 1) with 2 in *.
    assert (k * den / (den * 2) < 2 ^ 52); [|lia].
    apply Z.div_lt_upper_bound; nia.
  - destruct (_ <? _); lia.
Qed.

(** The double quotient of an exact multiple is the multiple. *)
Lemma fdiv_exact (q c : Z) :
  q <> 0 -> 0 < c -> Z.abs (q * c) < 2 ^ 53 ->
  exists e, e <= 0 /\ Fmt.fdiv (q * c) c = Fmt.Finite (q * 2 ^ (- e)) e.
Proof.
  intros Hq Hc Hb. unfold Fmt.fdiv.
  destruct (Z.eqb_spec c 0); [lia|].
  destruct (Z.eqb_spec (q * c) 0); [nia|].
  rewrite Z.abs_mul, (Z.abs_eq c) by lia.
  rewrite Z.abs_mul, (Z.abs_eq c) in Hb by lia.
  assert (Hk : 0 < Z.abs q < 2 ^ 53) by nia.
  pose proof (fdiv_exponent_nonpos (Z.abs q) c Hk Hc) as He.
  destruct (Fmt.scaled (Z.abs q * c) c (Z.log2 (Z.abs q * c) - Z.log2 c - 52))
    as [num0 den0].
  set (e := if num0 / den0 <? 2 ^ 52 then _ else _) in *.
  exists e. split; [done|].
  pose proof (scaled_rne_exact (Z.abs q) c e Hc He) as Hr.
  destruct (Fmt.scaled (Z.abs q * c) c e) as [num1 den1]. rewrite Hr. f_equal.
  rewrite Z.sgn_mul, (Z.sgn_pos c) by lia.
  pose proof (Z.sgn_abs q). nia.
Qed.

Lemma f2_integer (q e : Z) :
  e <= 0 ->
  Fmt.f2 (Fmt.Finite (q * 2 ^ (- e)) e)
  = (if q <? 0 then "-" else "") +:+ Fmt.d (Z.abs q) +:+ ".00".
Proof.
  intros He. unfold Fmt.f2, Fmt.scaled.
  assert (Hp : 0 < 2 ^ (- e)) by (apply Z.pow_pos_nonneg; lia).
  destruct (Z.leb_spec 0 (- e)); [|lia].
  rewrite Z.abs_mul, (Z.abs_eq (2 ^ (- e))) by lia.
  replace (Z.abs q * 2 ^ (- e) * 100) with (Z.abs q * 100 * (1 * 2 ^ (- e))) by lia.
  rewrite rne_exact by lia.
  rewrite Z.div_mul, Z.mod_mul by lia.
  replace (q * 2 ^ (- e) <? 0) with (q <? 0); [reflexivity|].
  destruct (Z.ltb_spec q 0), (Z.ltb_spec (q * 2 ^ (- e)) 0); try done; nia.
Qed.

(** When the total intensity is an exact multiple [q] of the count
    and lies below 2^53 in magnitude, the mean is written as [q] with
    two zero decimals. *)
Theorem mean_of_exact_multiple (q c : Z) :
  0 < c -> Z.abs (q * c) < 2 ^ 53 ->
  Fmt.f2 (Fmt.true_divide (q * c) c)
  = (if q <? 0 then "-" else "") +:+ Fmt.d (Z.abs q) +:+ ".00".
Proof.
  intros Hc Hb. unfold Fmt.true_divide.
  destruct (Z.eq_dec q 0) as [->|Hq].
  - change (0 * c) with 0. change (Num.round53 0) with 0.
    unfold Fmt.fdiv. pose proof (round53_pos c Hc).
    destruct (Z.eqb_spec (Num.round53 c) 0); [lia|]. reflexivity.
  - assert (Z.abs c <= 2 ^ 53) by nia.
    rewrite (round53_exact c), (round53_exact (q * c)) by lia.
    destruct (fdiv_exact q c Hq Hc Hb) as (e & He & ->).
    by apply f2_integer.
Qed.

(** * Instances *)

Lemma pixels_row_major_witness :
  (plane_wf scenario_plane /\ (1 < height scenario_plane)%nat
   /\ (0 < width scenario_plane)%nat)
  /\ exists v,
       pdata scenario_plane !! (1 * width scenario_plane + 0)%nat = Some v
       /\ pixels identity_warp scenario_plane 0 !! (1 * width scenario_plane + 0)%nat
          = Some (identity_warp 0 (height scenario_plane) (width scenario_plane)
                    (0, Z.of_nat 1, Z.of_nat 0), v).
Proof.
  assert (H1 : plane_wf scenario_plane) by reflexivity.
  assert (H2 : (1 < height scenario_plane)%nat) by (simpl; lia).
  assert (H3 : (0 < width scenario_plane)%nat) by (simpl; lia).
  split; [done|].
  exact (pixels_row_major identity_warp scenario_plane 0 1 0 H1 H2 H3).
Defined.

Lemma do_plane_outcome_witness :
  plane_wf scenario_plane
  /\ (vdata scenario_volume = [] ->
      do_plane identity_warp scenario_plane 0 scenario_volume = Raise ValueError)
  /\ (vdata scenario_volume <> [] ->
      exists cs, do_plane identity_warp scenario_plane 0 scenario_volume = Ok cs).
Proof.
  assert (H1 : plane_wf scenario_plane) by reflexivity.
  split; [done|].
  exact (do_plane_outcome identity_warp scenario_plane 0 scenario_volume H1).
Defined.

Lemma do_plane_all_outside_witness :
  (plane_wf scenario_plane /\ is_max 2 (vdata scenario_volume)
   /\ (forall p, p ∈ pixels far_warp scenario_plane 0 -> ~ inside scenario_volume p.1))
  /\ do_plane far_warp scenario_plane 0 scenario_volume
     = Ok (I64 (replicate (Z.to_nat (2 + 1)) 0), I64 (replicate (Z.to_nat (2 + 1)) 0)).
Proof.
  assert (H1 : plane_wf scenario_plane) by reflexivity.
  assert (H2 : is_max 2 (vdata scenario_volume)).
  { split; [set_solver|]. simpl. repeat constructor; lia. }
  assert (H3 : forall p, p ∈ pixels far_warp scenario_plane 0 ->
                 ~ inside scenario_volume p.1).
  { apply Forall_forall. unfold inside.
    repeat constructor; simpl; lia. }
  split; [done|].
  exact (do_plane_all_outside far_warp scenario_plane 0 scenario_volume 2 H1 H2 H3).
Defined.

Lemma masked_read_in_range_witness :
  (Z.of_nat (length (vdata scenario_volume))
     = nz scenario_volume * ny scenario_volume * nx scenario_volume
   /\ in_bounds scenario_volume (0, 1, 0) = true)
  /\ exists v,
       vdata scenario_volume
         !! Z.to_nat (((0, 1, 0).1.1 * ny scenario_volume + (0, 1, 0).1.2)
                      * nx scenario_volume + (0, 1, 0).2) = Some v
       /\ vol_get scenario_volume (0, 1, 0) = v.
Proof.
  split; [split; reflexivity|].
  exact (masked_read_in_range scenario_volume (0, 1, 0) eq_refl eq_refl).
Defined.

Lemma do_plane_conserves_witness :
  (plane_wf scenario_plane /\ uint16_volume scenario_volume
   /\ is_max 2 (vdata scenario_volume)
   /\ Z.of_nat (height scenario_plane * width scenario_plane) < 2 ^ 63)
  /\ exists counts sums,
       do_plane identity_warp scenario_plane 0 scenario_volume
         = Ok (I64 counts, sums)
       /\ zsum counts
          = Z.of_nat (length (kept identity_warp scenario_volume scenario_plane 0))
       /\ (zsum (Z.abs <$> (kept identity_warp scenario_volume scenario_plane 0).*2)
            <= 2 ^ 53 ->
           zsum (values sums)
           = zsum (kept identity_warp scenario_volume scenario_plane 0).*2).
Proof.
  assert (H1 : plane_wf scenario_plane) by reflexivity.
  assert (H2 : uint16_volume scenario_volume).
  { unfold uint16_volume, scenario_volume; simpl. repeat constructor; lia. }
  assert (H3 : is_max 2 (vdata scenario_volume)).
  { split; [set_solver|]. simpl. repeat constructor; lia. }
  assert (H4 : Z.of_nat (height scenario_plane * width scenario_plane) < 2 ^ 63)
    by reflexivity.
  split; [done|].
  exact (do_plane_conserves identity_warp scenario_plane 0 scenario_volume 2
           H1 H2 H3 H4).
Defined.

Lemma astype_uint16_fixes_labels_witness :
  uint16_volume scenario_volume /\ astype_uint16 scenario_volume = scenario_volume.
Proof.
  assert (H : uint16_volume scenario_volume).
  { unfold uint16_volume, scenario_volume; simpl. repeat constructor; lia. }
  split; [done|]. exact (astype_uint16_fixes_labels scenario_volume H).
Defined.

Lemma reduce_sums_columns_witness :
  Forall (fun r : list Z * list Z =>
            length r.1 = Z.to_nat 3 /\ length r.2 = Z.to_nat 3)
    [([0; 2; 2], [0; 30; 70]); ([0; 1; 3], [0; 5; 9])]
  /\ exists total_counts total_sums,
    reduce (Np.zeros 3, Np.zeros 3)
      ((fun r : list Z * list Z => Ok (I64 r.1, I64 r.2))
         <$> [([0; 2; 2], [0; 30; 70]); ([0; 1; 3], [0; 5; 9])])
      = Ok (total_counts, total_sums)
    /\ forall i, (i < Z.to_nat 3)%nat ->
         total_counts !! i
           = Some (Num.to_int64
                     (zsum ((fun r : list Z * list Z => default 0 (r.1 !! i))
                              <$> [([0; 2; 2], [0; 30; 70]); ([0; 1; 3], [0; 5; 9])])))
         /\ total_sums !! i
           = Some (Num.to_int64
                     (zsum ((fun r : list Z * list Z => default 0 (r.2 !! i))
                              <$> [([0; 2; 2], [0; 30; 70]); ([0; 1; 3], [0; 5; 9])]))).
Proof.
  assert (H : Forall (fun r : list Z * list Z =>
                        length r.1 = Z.to_nat 3 /\ length r.2 = Z.to_nat 3)
                [([0; 2; 2], [0; 30; 70]); ([0; 1; 3], [0; 5; 9])]).
  { repeat constructor. }
  split; [done|]. exact (reduce_sums_columns 3 _ H).
Defined.

Lemma reduce_failed_task_witness :
  Raise IndexError ∈ [Ok (I64 [1], I64 [5]); Raise IndexError]
  /\ exists e', reduce ([0], [0]) [Ok (I64 [1], I64 [5]); Raise IndexError] = Raise e'.
Proof.
  assert (H : Raise IndexError
              ∈ [Ok (I64 [1], I64 [5]); (Raise IndexError : result (ndarray * ndarray))]).
  { right. left. }
  split; [done|]. exact (reduce_failed_task ([0], [0]) _ IndexError H).
Defined.

Lemma sequential_stops_at_first_failure_witness :
  (n_cores (Args 7 (Some 1)) = Some 1 /\ vdata scenario_volume <> []
   /\ plane_wf scenario_plane
   /\ exists p, p ∈ pixels identity_warp scenario_plane 0 /\ inside scenario_volume p.1)
  /\ aggregate identity_warp (Args 7 (Some 1)) scenario_volume
       [scenario_plane; second_plane]
     = ([0%nat], Raise TypeError).
Proof.
  assert (H1 : n_cores (Args 7 (Some 1)) = Some 1) by reflexivity.
  assert (H2 : vdata scenario_volume <> []) by discriminate.
  assert (H3 : plane_wf scenario_plane) by reflexivity.
  assert (H4 : exists p, p ∈ pixels identity_warp scenario_plane 0
                         /\ inside scenario_volume p.1).
  { exists ((0, 0, 0), 10). split; [by left|]. unfold inside. simpl. lia. }
  split; [done|].
  exact (sequential_stops_at_first_failure identity_warp (Args 7 (Some 1))
           scenario_volume scenario_plane [second_plane] H1 H2 H3 H4).
Defined.

Lemma main_raises_type_error_witness :
  (Pool (n_cores (Args 7 (Some 4))) = Ok () /\ vdata scenario_volume <> []
   /\ plane_wf scenario_plane
   /\ exists p, p ∈ pixels identity_warp scenario_plane 0 /\ inside scenario_volume p.1)
  /\ (main identity_warp cortex_names cortex_level (Args 7 (Some 4)) scenario_volume
        [scenario_plane; second_plane]).2
     = Raise TypeError.
Proof.
  assert (H1 : Pool (n_cores (Args 7 (Some 4))) = Ok ()) by reflexivity.
  assert (H2 : vdata scenario_volume <> []) by discriminate.
  assert (H3 : plane_wf scenario_plane) by reflexivity.
  assert (H4 : exists p, p ∈ pixels identity_warp scenario_plane 0
                         /\ inside scenario_volume p.1).
  { exists ((0, 0, 0), 10). split; [by left|]. unfold inside. simpl. lia. }
  split; [done|].
  exact (main_raises_type_error identity_warp cortex_names cortex_level
           (Args 7 (Some 4)) scenario_volume scenario_plane [second_plane]
           H1 H2 H3 H4).
Defined.

Lemma surviving_ids_ascending_witness :
  length [3; 2; 0; 1] = length [10; -70; 0; 1]
  /\ exists rows, surviving [3; 2; 0; 1] [10; -70; 0; 1] = Ok rows
       /\ StronglySorted Z.lt ((fun r => r.1.1.1) <$> rows).
Proof.
  split; [reflexivity|].
  exact (surviving_ids_ascending [3; 2; 0; 1] [10; -70; 0; 1] eq_refl).
Defined.

Lemma report_coarse_shared_name_witness :
  (length cortex_counts = length cortex_sums /\ (1 =? 7) = false
   /\ ~ NoDup ((fun r => cortex_level r.1.1 1) <$> survivors cortex_counts cortex_sums))
  /\ report cortex_names cortex_level 1 cortex_counts cortex_sums = Raise TypeError.
Proof.
  assert (H1 : length cortex_counts = length cortex_sums) by reflexivity.
  assert (H2 : (1 =? 7) = false) by reflexivity.
  assert (H3 : ~ NoDup ((fun r => cortex_level r.1.1 1)
                          <$> survivors cortex_counts cortex_sums)).
  { vm_compute. intros Hnd. apply NoDup_cons in Hnd as [Hnotin _].
    apply Hnotin. left. }
  split; [done|].
  exact (report_coarse_shared_name cortex_names cortex_level 1 cortex_counts
           cortex_sums H1 H2 H3).
Defined.

Lemma report_coarse_distinct_names_witness :
  (length [0; 4; 0; 0; 0; 0; 0; 0; 0; 0; 3]
     = length [0; 100; 0; 0; 0; 0; 0; 0; 0; 0; 30]
   /\ (1 =? 7) = false
   /\ NoDup ((fun r => cortex_level r.1.1 1)
               <$> survivors [0; 4; 0; 0; 0; 0; 0; 0; 0; 0; 3]
                             [0; 100; 0; 0; 0; 0; 0; 0; 0; 0; 30]))
  /\ exists groups,
       groups ≡ₚ survivors [0; 4; 0; 0; 0; 0; 0; 0; 0; 0; 3]
                           [0; 100; 0; 0; 0; 0; 0; 0; 0; 0; 30]
       /\ Sorted str_le ((fun r => cortex_level r.1.1 1) <$> groups)
       /\ report cortex_names cortex_level 1 [0; 4; 0; 0; 0; 0; 0; 0; 0; 0; 3]
                                             [0; 100; 0; 0; 0; 0; 0; 0; 0; 0; 30]
          = Ok (header_coarse
                +:+ foldr (fun r out =>
                             coarse_line (cortex_level r.1.1 1) r.1.2 r.2 +:+ out)
                          ""%string groups).
Proof.
  assert (H1 : length [0; 4; 0; 0; 0; 0; 0; 0; 0; 0; 3]
               = length [0; 100; 0; 0; 0; 0; 0; 0; 0; 0; 30]) by reflexivity.
  assert (H2 : (1 =? 7) = false) by reflexivity.
  assert (H3 : NoDup ((fun r => cortex_level r.1.1 1)
                        <$> survivors [0; 4; 0; 0; 0; 0; 0; 0; 0; 0; 3]
                                      [0; 100; 0; 0; 0; 0; 0; 0; 0; 0; 30])).
  { vm_compute. apply NoDup_cons. split; [|apply NoDup_singleton].
    intros Hin. apply list_elem_of_singleton in Hin. discriminate Hin. }
  split; [done|].
  exact (report_coarse_distinct_names cortex_names cortex_level 1 _ _ H1 H2 H3).
Defined.

(** The rows of the coarse file come out sorted: CortexA before root. *)
Example report_coarse_sorted :
  report cortex_names cortex_level 1 [0; 4; 0; 0; 0; 0; 0; 0; 0; 0; 3]
                                      [0; 100; 0; 0; 0; 0; 0; 0; 0; 0; 30]
  = Ok (header_coarse +:+ coarse_line "CortexA" 3 30 +:+ coarse_line "root" 4 100).
Proof. vm_compute. reflexivity. Qed.

Lemma mean_of_exact_multiple_witness :
  (0 < 2 /\ Z.abs (15 * 2) < 2 ^ 53)
  /\ Fmt.f2 (Fmt.true_divide (15 * 2) 2)
     = (if 15 <? 0 then "-" else "") +:+ Fmt.d (Z.abs 15) +:+ ".00".
Proof.
  assert (H1 : 0 < 2) by lia.
  assert (H2 : Z.abs (15 * 2) < 2 ^ 53) by reflexivity.
  split; [done|]. exact (mean_of_exact_multiple 15 2 H1 H2).
Defined.

(** * The two branches of the driver *)

Section Branches.

Variable warp_round : Z -> nat -> nat -> Z * Z * Z -> Z * Z * Z.

Lemma run_sequential_reduce (seg : volume) (totals : list Z * list Z)
    (work : list (nat * plane)) :
  (run_sequential warp_round seg totals work).2
  = reduce totals ((fun zf => do_plane warp_round zf.2 (Z.of_nat zf.1) seg) <$> work).
Proof.
  revert totals. induction work as [|[z f] work IH]; intros totals; [done|].
  cbn [run_sequential fmap list_fmap reduce fst snd].
  destruct (do_plane warp_round f (Z.of_nat z) seg) as [cs|e]; [|done].
  cbn [mbind result_bind].
  destruct (accumulate totals cs) as [totals'|e]; [|done].
  cbn [mbind result_bind]. rewrite <- IH.
  by destruct (run_sequential warp_round seg totals' work).
Qed.

Lemma run_sequential_prefix (seg : volume) (totals : list Z * list Z)
    (work : list (nat * plane)) :
  (run_sequential warp_round seg totals work).1 `prefix_of` work.*1.
Proof.
  revert totals. induction work as [|[z f] work IH]; intros totals; [done|].
  cbn [run_sequential fmap list_fmap].
  destruct (_ ≫= _) as [totals'|e].
  - specialize (IH totals').
    destruct (run_sequential warp_round seg totals' work) as [log r].
    cbn [fst] in *. by apply prefix_cons.
  - cbn [fst]. apply prefix_cons, prefix_nil.
Qed.

(** The worker count decides how the planes are processed, never what
    comes out: with any two worker counts that the pool accepts, the
    run ends in the same totals or in the same exception. *)
Theorem worker_count_keeps_outcome (a a' : args) (raw : volume) (files : list plane) :
  Pool (n_cores a) = Ok () -> Pool (n_cores a') = Ok () ->
  (aggregate warp_round a raw files).2 = (aggregate warp_round a' raw files).2.
Proof.
  intros Hp Hp'. unfold aggregate. destruct (txn _); [|done].
  destruct files as [|f files]; [done|].
  destruct (Np.max _) as [top|e]; [|done].
  unfold run_pool. rewrite Hp, Hp'.
  repeat case_decide; cbn [snd]; by rewrite ?run_sequential_reduce.
Qed.

(** Planes are handed to [do_plane] in index order and none twice:
    whatever the arguments, the planes touched by a run form an
    initial segment of the file list. *)
Theorem planes_in_index_order (a : args) (raw : volume) (files : list plane) :
  (aggregate warp_round a raw files).1 `prefix_of` seq 0 (length files).
Proof.
  unfold aggregate. destruct (txn _); [|apply prefix_nil].
  destruct files as [|f files]; [done|].
  destruct (Np.max _) as [top|e]; [|apply prefix_nil].
  rewrite <- enumerate_fst. case_decide.
  - apply run_sequential_prefix.
  - unfold run_pool. destruct (Pool _); [done|apply prefix_nil].
Qed.

End Branches.

Lemma worker_count_keeps_outcome_witness :
  (Pool (n_cores (Args 7 (Some 1))) = Ok () /\ Pool (n_cores (Args 7 (Some 4))) = Ok ())
  /\ (aggregate identity_warp (Args 7 (Some 1)) scenario_volume
        [scenario_plane; second_plane]).2
     = (aggregate identity_warp (Args 7 (Some 4)) scenario_volume
          [scenario_plane; second_plane]).2.
Proof.
  split; [split; reflexivity|].
  exact (worker_count_keeps_outcome identity_warp (Args 7 (Some 1)) (Args 7 (Some 4))
           scenario_volume [scenario_plane; second_plane] eq_refl eq_refl).
Defined.

(** * The report as a whole *)

Section ReportClaims.

Variable name_per_id : gmap Z string.
Variable get_level_name : Z -> Z -> string.

(** The two ways a coarse report can end: in [TypeError], or with one
    line for every surviving id and for nothing else, the lines
    sorted by name. *)
Lemma report_coarse_cases (lvl : Z) (total_counts total_sums : list Z) :
  length total_counts = length total_sums -> (lvl =? 7) = false ->
  report name_per_id get_level_name lvl total_counts total_sums = Raise TypeError
  \/ exists groups,
       groups ≡ₚ survivors total_counts total_sums
       /\ Sorted str_le ((fun r => get_level_name r.1.1 lvl) <$> groups)
       /\ report name_per_id get_level_name lvl total_counts total_sums
          = Ok (header_coarse
                +:+ foldr (fun r out =>
                             coarse_line (get_level_name r.1.1 lvl) r.1.2 r.2 +:+ out)
                          ""%string groups).
Proof.
  intros Hlen Hl. unfold report.
  destruct (surviving_fst _ _ Hlen) as (rows & -> & Hrows).
  cbn [mbind result_bind]. rewrite Hl, Hrows.
  set (sv := survivors total_counts total_sums) in *.
  assert (He : tuples ∅) by (intros k v; by rewrite lookup_empty).
  destruct (group_loop get_level_name lvl ∅ sv) as [d|e] eqn:Hd.
  2:{ left. apply group_loop_raises in Hd; [|done]. by subst e. }
  right. cbn [mbind result_bind].
  apply group_loop_ok in Hd as (Hchar & Hnd & _); [|done].
  assert (Hkeys : (map_to_list d).*1 ≡ₚ (fun r => get_level_name r.1.1 lvl) <$> sv).
  { apply NoDup_Permutation; [apply NoDup_fst_map_to_list|done|].
    intros name. rewrite !list_elem_of_fmap. split.
    - intros ([k v] & -> & Hin). apply elem_of_map_to_list in Hin.
      apply Hchar in Hin as [Hin|(i & c & s & Hin & Hname & _)].
      + by rewrite lookup_empty in Hin.
      + exists (i, c, s). by split.
    - intros ([[i c] s] & -> & Hin).
      exists (get_level_name i lvl, PyTuple [c; s]). split; [done|].
      apply elem_of_map_to_list, Hchar. right. by exists i, c, s. }
  assert (Hsort : merge_sort str_le (map_to_list d).*1
                  ≡ₚ map (fun r => get_level_name r.1.1 lvl) sv).
  { etrans; [apply merge_sort_Permutation|exact Hkeys]. }
  apply Permutation_map_inv in Hsort as (groups & Hnames & Hperm).
  exists groups. split; [by symmetry|]. split.
  - change (Sorted str_le (map (fun r => get_level_name r.1.1 lvl) groups)).
    rewrite <- Hnames. apply Sorted_merge_sort, _.
  - rewrite Hnames.
    change (map ?f groups) with (f <$> groups).
    rewrite rows_coarse_lines; [done|].
    intros [[i c] s] Hr. apply Hchar. right. exists i, c, s.
    split; [|done]. by rewrite Hperm.
Qed.

Lemma survivors_spec (total_counts total_sums : list Z) (seg_id c s : Z) :
  (seg_id, c, s) ∈ survivors total_counts total_sums ->
  0 < c /\ total_counts !! Z.to_nat seg_id = Some c.
Proof.
  unfold survivors. intros Hin.
  apply list_elem_of_fmap in Hin as (i & [= -> -> ->] & Hi).
  apply where_positive_spec in Hi as (c & E & Hc).
  rewrite Nat2Z.id, E. by simpl.
Qed.

(** C5: the ids whose total count is zero are dropped before the
    report, at every level.  Every surviving row has a positive
    count, which is the total count of its id, and a finite mean; an
    id of count zero has no row.  The level 7 file holds the header
    and one line per surviving row.  At any other level the report
    either raises [TypeError] or holds the header and one line for
    each surviving id and for nothing else, so that every line comes
    from an id of positive count. *)
Theorem zero_counts_dropped (total_counts total_sums : list Z) :
  length total_counts = length total_sums ->
  exists rows,
    surviving total_counts total_sums = Ok rows
    /\ (forall seg_id c s mean, (seg_id, c, s, mean) ∈ rows ->
          0 < c /\ total_counts !! Z.to_nat seg_id = Some c
          /\ exists m e, mean = Fmt.Finite m e)
    /\ (forall i, total_counts !! i = Some 0 ->
          forall c s mean, (Z.of_nat i, c, s, mean) ∉ rows)
    /\ report name_per_id get_level_name 7 total_counts total_sums
        = Ok (header7 +:+ foldr (fun r out => row7 name_per_id r +:+ out) ""%string rows)
    /\ (forall lvl d, group_loop get_level_name lvl ∅ rows.*1 = Ok d ->
          forall name v, d !! name = Some v ->
          exists seg_id c s,
            v = PyTuple [c; s] /\ name = get_level_name seg_id lvl
            /\ 0 < c /\ total_counts !! Z.to_nat seg_id = Some c)
    /\ (forall lvl, (lvl =? 7) = false ->
          report name_per_id get_level_name lvl total_counts total_sums
            = Raise TypeError
          \/ exists groups,
               groups ≡ₚ rows.*1
               /\ (forall seg_id c s, (seg_id, c, s) ∈ groups ->
                     0 < c /\ total_counts !! Z.to_nat seg_id = Some c)
               /\ (forall i, total_counts !! i = Some 0 ->
                     forall c s, (Z.of_nat i, c, s) ∉ groups)
               /\ report name_per_id get_level_name lvl total_counts total_sums
                  = Ok (header_coarse
                        +:+ foldr (fun r out =>
                                     coarse_line (get_level_name r.1.1 lvl) r.1.2 r.2
                                     +:+ out)
                                  ""%string groups)).
Proof.
  intros Hlen. destruct (surviving_fst _ _ Hlen) as (rows & Hsurv & Hfst).
  exists rows. split; [done|].
  assert (Hrows : rows
    = (fun i => (Z.of_nat i, default 0 (total_counts !! i),
                 default 0 (total_sums !! i),
                 Fmt.fdiv (Num.round53 (default 0 (total_sums !! i)))
                          (Num.round53 (default 0 (total_counts !! i)))))
        <$> where_positive total_counts).
  { rewrite surviving_rows in Hsurv by done. by injection Hsurv. }
  assert (Hrow : forall seg_id c s mean, (seg_id, c, s, mean) ∈ rows ->
    exists i, seg_id = Z.of_nat i /\ total_counts !! i = Some c /\ 0 < c
      /\ mean = Fmt.fdiv (Num.round53 s) (Num.round53 c)).
  { intros seg_id c s mean Hin. rewrite Hrows in Hin.
    apply list_elem_of_fmap in Hin as (i & [= -> -> -> ->] & Hi).
    apply where_positive_spec in Hi as (c & E & Hc).
    exists i. rewrite E. by simpl. }
  split; [|split; [|split; [|split]]].
  - intros seg_id c s mean Hin.
    destruct (Hrow _ _ _ _ Hin) as (i & -> & E & Hc & ->).
    rewrite Nat2Z.id. split; [done|]. split; [done|].
    apply fdiv_finite. pose proof (round53_pos c Hc). lia.
  - intros i Hz c s mean Hin.
    destruct (Hrow _ _ _ _ Hin) as (j & Hj & E & Hc & _).
    apply Nat2Z.inj in Hj. subst j. rewrite Hz in E. injection E as <-. lia.
  - unfold report. rewrite Hsurv. reflexivity.
  - intros lvl d Hrun name v Hv.
    apply group_loop_ok in Hrun as (Hd & _ & _);
      [|intros k w; by rewrite lookup_empty].
    apply Hd in Hv as [Hv|(seg_id & c & s & Hin & -> & ->)];
      [by rewrite lookup_empty in Hv|].
    apply list_elem_of_fmap in Hin as ([[[i' c'] s'] mean] & [= -> -> ->] & Hin).
    destruct (Hrow _ _ _ _ Hin) as (i & -> & E & Hc & _).
    exists (Z.of_nat i), c', s'. by rewrite Nat2Z.id.
  - intros lvl Hl.
    destruct (report_coarse_cases lvl total_counts total_sums Hlen Hl)
      as [Hr|(groups & Hperm & _ & Hr)]; [by left|].
    right. exists groups. rewrite Hfst.
    split; [done|]. split; [|split; [|done]].
    + intros seg_id c s Hin. rewrite Hperm in Hin. by eapply survivors_spec.
    + intros i Hz c s Hin. rewrite Hperm in Hin.
      apply survivors_spec in Hin as [Hc E].
      rewrite Nat2Z.id, Hz in E. injection E as <-. lia.
Qed.



End ReportClaims.

Lemma zero_counts_dropped_witness :
  length [3; 2; 0; 1] = length [10; -70; 0; 1]
  /\ exists rows,
    surviving [3; 2; 0; 1] [10; -70; 0; 1] = Ok rows
    /\ (forall seg_id c s mean, (seg_id, c, s, mean) ∈ rows ->
          0 < c /\ [3; 2; 0; 1] !! Z.to_nat seg_id = Some c
          /\ exists m e, mean = Fmt.Finite m e)
    /\ (forall i, [3; 2; 0; 1] !! i = Some 0 ->
          forall c s mean, (Z.of_nat i, c, s, mean) ∉ rows)
    /\ report cortex_names cortex_level 7 [3; 2; 0; 1] [10; -70; 0; 1]
        = Ok (header7 +:+ foldr (fun r out => row7 cortex_names r +:+ out) ""%string rows)
    /\ (forall lvl d, group_loop cortex_level lvl ∅ rows.*1 = Ok d ->
          forall name v, d !! name = Some v ->
          exists seg_id c s,
            v = PyTuple [c; s] /\ name = cortex_level seg_id lvl
            /\ 0 < c /\ [3; 2; 0; 1] !! Z.to_nat seg_id = Some c)
    /\ (forall lvl, (lvl =? 7) = false ->
          report cortex_names cortex_level lvl [3; 2; 0; 1] [10; -70; 0; 1]
            = Raise TypeError
          \/ exists groups,
               groups ≡ₚ rows.*1
               /\ (forall seg_id c s, (seg_id, c, s) ∈ groups ->
                     0 < c /\ [3; 2; 0; 1] !! Z.to_nat seg_id = Some c)
               /\ (forall i, [3; 2; 0; 1] !! i = Some 0 ->
                     forall c s, (Z.of_nat i, c, s) ∉ groups)
               /\ report cortex_names cortex_level lvl [3; 2; 0; 1] [10; -70; 0; 1]
                  = Ok (header_coarse
                        +:+ foldr (fun r out =>
                                     coarse_line (cortex_level r.1.1 lvl) r.1.2 r.2
                                     +:+ out)
                                  ""%string groups)).
Proof.
  split; [reflexivity|].
  exact (zero_counts_dropped cortex_names cortex_level
           [3; 2; 0; 1] [10; -70; 0; 1] eq_refl).
Defined.

(** A coarse report over totals in which the ids 1 and 10 were hit
    and the ids in between were not: two lines, none for an id of
    count zero. *)
Example report_coarse_drops_zero_counts :
  report cortex_names cortex_level 3 [0; 4; 0; 0; 0; 0; 0; 0; 0; 0; 3]
                                      [0; 100; 0; 0; 0; 0; 0; 0; 0; 0; 30]
  = Ok (header_coarse +:+ coarse_line "CortexA" 3 30 +:+ coarse_line "root" 4 100).
Proof. vm_compute. reflexivity. Qed.

(** Label 0 at a coarse level: filed under the ancestor name the
    hierarchy gives it, here root, not under "not in any region". *)
Example report_coarse_label_zero :
  report cortex_names cortex_level 3 [2; 0; 0; 0; 0; 0; 0; 0; 0; 0; 3]
                                      [9; 0; 0; 0; 0; 0; 0; 0; 0; 0; 30]
  = Ok (header_coarse +:+ coarse_line "CortexA" 3 30 +:+ coarse_line "root" 2 9).
Proof. vm_compute. reflexivity. Qed.

(** * The load, seen from the run *)

(** C9: every value of the reference segmentation is reduced modulo
    2^16 when the volume is loaded, so the labels of the shared volume
    lie in 0..65535 and an id of 65536 or more takes the place of a
    lower id.  The run counts on the reduced volume only: the totals
    are as long as the largest reduced label requires, every plane is
    processed over the reduced volume, and a pixel that lands on a
    cell of raw label [v] is counted under [v mod 65536]. *)
Theorem segmentation_cast_uint16 (raw : volume) :
  (forall i v, vdata raw !! i = Some v ->
     vdata (astype_uint16 raw) !! i = Some (v mod 65536))
  /\ uint16_volume (astype_uint16 raw)
  /\ (forall v k, Num.to_uint16 (v + 65536 * k) = Num.to_uint16 v)
  /\ (forall warp_round names levels a files,
        main warp_round names levels a raw files
        = main warp_round names levels a (astype_uint16 raw) files)
  /\ (forall warp_round a f files,
        Pool (n_cores a) = Ok () -> vdata raw <> [] ->
        exists top,
          is_max top ((fun v => v mod 65536) <$> vdata raw)
          /\ (aggregate warp_round a raw (f :: files)).2
             = reduce (Np.zeros (top + 1), Np.zeros (top + 1))
                 ((fun zf => do_plane warp_round zf.2 (Z.of_nat zf.1)
                               (astype_uint16 raw))
                    <$> enumerate (f :: files)))
  /\ (forall warp_round pl z,
        plane_wf pl -> vdata raw <> [] ->
        Z.of_nat (height pl * width pl) < 2 ^ 63 ->
        exists top counts sums,
          is_max top ((fun v => v mod 65536) <$> vdata raw)
          /\ do_plane warp_round pl z (astype_uint16 raw) = Ok (I64 counts, sums)
          /\ length counts = Z.to_nat (top + 1)
          /\ forall l, 0 <= l <= top ->
               counts !! Z.to_nat l
               = Some (Z.of_nat (length
                   (filter (fun p => inside raw p.1 /\ vol_get raw p.1 mod 65536 = l)
                           (pixels warp_round pl z))))).
Proof.
  split; [|split; [|split; [|split; [|split]]]].
  - intros i v Hv. unfold astype_uint16. simpl.
    rewrite list_lookup_fmap, Hv. reflexivity.
  - apply astype_uint16_range.
  - intros v k. unfold Num.to_uint16.
    change 65536 with (2 ^ 16). rewrite Z.mul_comm. apply Z_mod_plus_full.
  - intros. unfold main, aggregate. by rewrite astype_uint16_idem.
  - intros warp_round a f files Hp Hv.
    destruct (np_max_loaded raw Hv) as [top E].
    exists top. split; [by apply np_max_Ok in E|].
    unfold aggregate. rewrite (txn_loaded raw Hv), E.
    case_decide.
    + apply run_sequential_reduce.
    + unfold run_pool. by rewrite Hp.
  - intros warp_round pl z Hwf Hv Hsize.
    destruct (np_max_loaded raw Hv) as [top E].
    apply np_max_Ok in E.
    destruct (do_plane_by_label warp_round pl z (astype_uint16 raw) top Hwf
                (astype_uint16_range raw) E Hsize)
      as (counts & sums & Hdo & Hlen & _ & _ & Hl).
    exists top, counts, sums. split; [done|]. split; [done|]. split; [done|].
    intros l Hrange. destruct (Hl l Hrange) as [-> _]. do 3 f_equal.
    unfold landed. apply list_filter_iff. intros p.
    by rewrite vol_get_astype.
Qed.

(** The raw labels 65537 and 1 are counted together under label 1,
    and 65538 under label 2. *)
Example do_plane_counts_reduced_labels :
  do_plane identity_warp (Plane 1 3 [5; 6; 7]) 0
    (astype_uint16 (Volume 1 1 3 [65537; 1; 65538]))
  = Ok (I64 [0; 2; 1], F64 [0; 11; 7]).
Proof. reflexivity. Qed.

(** * A run in which no pixel lands inside the volume *)

Lemma zip_with_add64_zeros (n : nat) :
  zip_with Num.add64 (replicate n 0) (replicate n 0) = replicate n 0.
Proof. induction n as [|n IH]; [done|]. simpl. by rewrite IH. Qed.

Lemma accumulate_zeros (n : Z) :
  accumulate (Np.zeros n, Np.zeros n) (I64 (Np.zeros n), I64 (Np.zeros n))
  = Ok (Np.zeros n, Np.zeros n).
Proof.
  unfold accumulate. cbn [fst snd].
  rewrite !iadd_int64_shaped by done. cbn [is_float values mbind result_bind].
  unfold Np.zeros. by rewrite zip_with_add64_zeros.
Qed.

Lemma where_positive_zeros (n : Z) : where_positive (Np.zeros n) = [].
Proof.
  unfold where_positive, Np.zeros.
  induction (seq 0 (length (replicate (Z.to_nat n) 0))) as [|i l IH]; [done|].
  rewrite filter_cons, decide_False; [done|].
  destruct (replicate (Z.to_nat n) 0 !! i) as [v|] eqn:E; simpl; [|lia].
  apply lookup_replicate in E as [-> _]. lia.
Qed.

Section OutsideRun.

Variable warp_round : Z -> nat -> nat -> Z * Z * Z -> Z * Z * Z.
Variable name_per_id : gmap Z string.
Variable get_level_name : Z -> Z -> string.

Lemma do_plane_outside (pl : plane) (z : Z) (m : volume) (top : Z) :
  plane_wf pl -> Np.max (vdata m) = Ok top ->
  (forall p, p ∈ pixels warp_round pl z -> ~ inside m p.1) ->
  do_plane warp_round pl z m = Ok (I64 (Np.zeros (top + 1)), I64 (Np.zeros (top + 1))).
Proof.
  intros Hwf Hmax Hout. rewrite (do_plane_masked warp_round pl z m top Hwf Hmax).
  assert (E : masked warp_round m pl z = []).
  { destruct (masked warp_round m pl z) as [|p V] eqn:E; [done|].
    assert (Hp : p ∈ masked warp_round m pl z) by (rewrite E; by left).
    unfold masked in Hp. apply list_elem_of_filter in Hp as [Hin Hp].
    apply in_bounds_inside in Hin. destruct (Hout p Hp Hin). }
  rewrite E. reflexivity.
Qed.

Lemma run_sequential_outside (seg : volume) (top : Z) (work : list (nat * plane)) :
  (forall zf, zf ∈ work ->
     do_plane warp_round zf.2 (Z.of_nat zf.1) seg
     = Ok (I64 (Np.zeros (top + 1)), I64 (Np.zeros (top + 1)))) ->
  run_sequential warp_round seg (Np.zeros (top + 1), Np.zeros (top + 1)) work
  = (work.*1, Ok (Np.zeros (top + 1), Np.zeros (top + 1))).
Proof.
  induction work as [|[z f] work IH]; intros Hw; [done|].
  pose proof (Hw (z, f) ltac:(by left)) as Hz. cbn [fst snd] in Hz.
  cbn [run_sequential]. rewrite Hz.
  cbn [mbind result_bind]. rewrite accumulate_zeros.
  rewrite IH by (intros zf Hzf; apply Hw; by right). reflexivity.
Qed.

Lemma reduce_outside (seg : volume) (top : Z) (work : list (nat * plane)) :
  (forall zf, zf ∈ work ->
     do_plane warp_round zf.2 (Z.of_nat zf.1) seg
     = Ok (I64 (Np.zeros (top + 1)), I64 (Np.zeros (top + 1)))) ->
  reduce (Np.zeros (top + 1), Np.zeros (top + 1))
    ((fun zf => do_plane warp_round zf.2 (Z.of_nat zf.1) seg) <$> work)
  = Ok (Np.zeros (top + 1), Np.zeros (top + 1)).
Proof.
  intros Hw. rewrite <- run_sequential_reduce.
  by rewrite run_sequential_outside.
Qed.

Lemma report_zeros (lvl n : Z) :
  report name_per_id get_level_name lvl (Np.zeros n) (Np.zeros n)
  = Ok (if lvl =? 7 then header7 else header_coarse).
Proof.
  unfold report, surviving. rewrite where_positive_zeros.
  cbn [take_ids mbind result_bind zip_with zip fmap list_fmap].
  destruct (lvl =? 7); [reflexivity|].
  cbn [group_loop mbind result_bind]. rewrite map_to_list_empty.
  reflexivity.
Qed.

(** Degenerate geometry over a whole stack: when every plane is well
    formed and every pixel of every plane is warped outside a
    segmentation that is not empty, the run raises nothing, hands
    every plane to [do_plane] in turn, and writes a file that holds
    the header of its level and no row. *)
Theorem run_without_inside_pixels (a : args) (raw : volume) (files : list plane) :
  Pool (n_cores a) = Ok () -> vdata raw <> [] -> files <> [] ->
  (forall z f, (z, f) ∈ enumerate files ->
     plane_wf f
     /\ forall p, p ∈ pixels warp_round f (Z.of_nat z) -> ~ inside raw p.1) ->
  main warp_round name_per_id get_level_name a raw files
  = (seq 0 (length files), Ok (if level a =? 7 then header7 else header_coarse)).
Proof.
  intros Hp Hv Hf Hout. unfold main, aggregate. rewrite (txn_loaded raw Hv).
  destruct files as [|f files]; [done|].
  destruct (np_max_loaded raw Hv) as [top E]. rewrite E.
  assert (Hw : forall zf, zf ∈ enumerate (f :: files) ->
            do_plane warp_round zf.2 (Z.of_nat zf.1) (astype_uint16 raw)
            = Ok (I64 (Np.zeros (top + 1)), I64 (Np.zeros (top + 1)))).
  { intros [z g] Hzf. destruct (Hout z g Hzf) as [Hwf Hno].
    by apply do_plane_outside. }
  rewrite <- enumerate_fst. case_decide.
  - rewrite run_sequential_outside by done.
    cbn [mbind result_bind fst snd]. by rewrite report_zeros.
  - unfold run_pool. rewrite Hp, reduce_outside by done.
    cbn [mbind result_bind fst snd]. by rewrite report_zeros.
Qed.

End OutsideRun.

Lemma run_without_inside_pixels_witness :
  (Pool (n_cores (Args 7 (Some 1))) = Ok () /\ vdata scenario_volume <> []
   /\ [scenario_plane; second_plane] <> []
   /\ (forall z f, (z, f) ∈ enumerate [scenario_plane; second_plane] ->
         plane_wf f
         /\ forall p, p ∈ pixels far_warp f (Z.of_nat z) ->
              ~ inside scenario_volume p.1))
  /\ main far_warp cortex_names cortex_level (Args 7 (Some 1)) scenario_volume
       [scenario_plane; second_plane]
     = (seq 0 (length [scenario_plane; second_plane]),
        Ok (if level (Args 7 (Some 1)) =? 7 then header7 else header_coarse)).
Proof.
  assert (H1 : Pool (n_cores (Args 7 (Some 1))) = Ok ()) by reflexivity.
  assert (H2 : vdata scenario_volume <> []) by discriminate.
  assert (H3 : [scenario_plane; second_plane] <> []) by discriminate.
  assert (H4 : forall z f, (z, f) ∈ enumerate [scenario_plane; second_plane] ->
                 plane_wf f
                 /\ forall p, p ∈ pixels far_warp f (Z.of_nat z) ->
                      ~ inside scenario_volume p.1).
  { intros z f Hzf. unfold enumerate in Hzf. cbn in Hzf.
    apply elem_of_cons in Hzf as [[= -> ->]|Hzf];
      [|apply list_elem_of_singleton in Hzf as [= -> ->]].
    - split; [reflexivity|]. apply Forall_forall. unfold inside.
      repeat constructor; simpl; lia.
    - split; [reflexivity|]. apply Forall_forall. unfold inside.
      repeat constructor; simpl; lia. }
  split; [done|].
  exact (run_without_inside_pixels far_warp cortex_names cortex_level
           (Args 7 (Some 1)) scenario_volume [scenario_plane; second_plane]
           H1 H2 H3 H4).
Defined.

(** Without [--n-cores] on a machine with one processor the parsed
    worker count is 1, and the run takes the sequential loop. *)
Example default_worker_count_of_one :
  parsed_n_cores None (Some 1) = Some 1
  /\ aggregate identity_warp (Args 7 (parsed_n_cores None (Some 1))) scenario_volume
       [scenario_plane; second_plane]
     = ([0%nat], Raise TypeError).
Proof. split; reflexivity. Qed.
